(** * CodeAlpha Calculator: a shallow embedding of script.js

    The development follows the layout of the script.  [Text] and [JSNumber]
    model the part of the JavaScript host the script calls (strings,
    IEEE 754 binary64 numbers, [parseFloat], [Number.prototype.toString],
    [toExponential], [toLocaleString]); [Calculator] holds the script's own
    modules ([CalculatorState], [DisplayController], [CalculationEngine],
    [InputHandler]) as functions over an explicit world; [EventListeners]
    holds the key map and the listeners, over a page given as a parameter;
    the theorems come last.

    Strings are held as UTF-8 text, one [ascii] per byte.  Every operand the
    calculator builds from its keys is ASCII, so a byte is a code unit
    wherever the script measures or slices a string. *)

From Stdlib Require Import ZArith List String Ascii Bool Lia.
From Stdlib Require Import Floats.SpecFloat.
From Stdlib Require Import DecimalString DecimalPos.
Import ListNotations.

Local Open Scope string_scope.
Local Open Scope Z_scope.

(* ================================================================== *)
(** * Text helpers *)
(* ================================================================== *)

Module Text.

(** [s.includes(sub)] *)
Fixpoint includes (s sub : string) : bool :=
  String.prefix sub s ||
  match s with
  | EmptyString => false
  | String _ rest => includes rest sub
  end.

(** The first [n] characters of [s], and what is left of it. *)
Fixpoint take (n : nat) (s : string) : string :=
  match n, s with
  | S n', String c rest => String c (take n' rest)
  | _, _ => EmptyString
  end.

Fixpoint drop (n : nat) (s : string) : string :=
  match n, s with
  | S n', String _ rest => drop n' rest
  | _, _ => s
  end.

(** [s.slice(0, -1)]: all of [s] but its last character. *)
Fixpoint slice_0_m1 (s : string) : string :=
  match s with
  | EmptyString => EmptyString
  | String c rest =>
      match rest with
      | EmptyString => EmptyString
      | String _ _ => String c (slice_0_m1 rest)
      end
  end.

(** [n] copies of the character [c]. *)
Fixpoint repeat (c : ascii) (n : nat) : string :=
  match n with
  | O => EmptyString
  | S n' => String c (repeat c n')
  end.

Definition is_digit (c : ascii) : bool :=
  let n := N_of_ascii c in (48 <=? n)%N && (n <=? 57)%N.

Fixpoint all_digits (s : string) : bool :=
  match s with
  | EmptyString => true
  | String c rest => is_digit c && all_digits rest
  end.

(** Every character of [s] is ASCII: a single code unit. *)
Fixpoint is_ascii (s : string) : bool :=
  match s with
  | EmptyString => true
  | String c rest => (N_of_ascii c <? 128)%N && is_ascii rest
  end.

(** Number of occurrences of the character [c] in [s]. *)
Fixpoint count (c : ascii) (s : string) : nat :=
  match s with
  | EmptyString => O
  | String d rest => ((if Ascii.eqb d c then 1 else 0) + count c rest)%nat
  end.

(** The longest prefix of decimal digits, and the rest. *)
Fixpoint span_digits (s : string) : string * string :=
  match s with
  | String c rest =>
      if is_digit c
      then let '(ds, tl) := span_digits rest in (String c ds, tl)
      else (EmptyString, s)
  | EmptyString => (EmptyString, EmptyString)
  end.

(** The value of a string of decimal digits, most significant first. *)
Fixpoint digits_value (acc : Z) (s : string) : Z :=
  match s with
  | EmptyString => acc
  | String c rest => digits_value (10 * acc + (Z.of_N (N_of_ascii c) - 48)) rest
  end.

(** The decimal numeral of a non-negative integer. *)
Definition decimal (n : Z) : string :=
  NilEmpty.string_of_uint (N.to_uint (Z.to_N n)).

(** A digit string without the zeros at its end. *)
Fixpoint strip_trailing_zeros (s : string) : string :=
  match s with
  | EmptyString => EmptyString
  | String c rest =>
      match strip_trailing_zeros rest with
      | EmptyString => if Ascii.eqb c "0" then EmptyString else String c EmptyString
      | rest' => String c rest'
      end
  end.

(** Group a digit string in threes from the right, separated by commas. *)
Fixpoint group3 (s : string) : string :=
  match s with
  | EmptyString => EmptyString
  | String c rest =>
      String c (if ((0 <? String.length rest)%nat &&
                    (Nat.modulo (String.length rest) 3 =? 0)%nat)%bool
                then String "," (group3 rest) else group3 rest)
  end.

End Text.

(* ================================================================== *)
(** * Numbers of the host: IEEE 754 binary64 *)
(* ================================================================== *)

Module JSNumber.

(** A Number is a binary64 value; the arithmetic is the Standard Library's
    specification of IEEE 754 at precision 53 and maximal exponent 1024,
    rounding to nearest, ties to even. *)
Definition number : Type := spec_float.

Definition prec : Z := 53.
Definition emax : Z := 1024.

Definition NaN : number := S754_nan.
Definition Infinity : number := S754_infinity false.
Definition zero : number := S754_zero false.

Definition add : number -> number -> number := SFadd prec emax.
Definition sub : number -> number -> number := SFsub prec emax.
Definition mul : number -> number -> number := SFmul prec emax.
Definition div : number -> number -> number := SFdiv prec emax.

(** [isNaN(x)], [Math.abs(x)], [x === y], [x !== y], [x < y], [x > y] *)
Definition isNaN (x : number) : bool :=
  match x with S754_nan => true | _ => false end.
Definition Math_abs : number -> number := SFabs.
Definition strict_eq : number -> number -> bool := SFeqb.
Definition strict_neq (x y : number) : bool := negb (SFeqb x y).
Definition lt : number -> number -> bool := SFltb.
Definition gt (x y : number) : bool := SFltb y x.

Definition isFinite (x : number) : bool :=
  match x with S754_zero _ | S754_finite _ _ _ => true | _ => false end.

(** ** From a decimal numeral to the nearest Number *)

(** The Number nearest to [num / den]. *)
Definition of_ratio (neg : bool) (num den : positive) : number :=
  let '(mz, ez, lz) :=
    SFdiv_core_binary prec emax (Zpos num) 0 (Zpos den) 0 in
  binary_round_aux prec emax neg mz ez lz.

(** The Number nearest to [d * 10^k], for [d >= 0]; a zero keeps its sign. *)
Definition of_decimal (neg : bool) (d k : Z) : number :=
  match d with
  | Zpos p =>
      match k with
      | Zneg q => of_ratio neg p (Pos.pow 10 q)
      | _ => binary_round prec emax neg (p * Z.to_pos (10 ^ k)) 0
      end
  | _ => S754_zero neg
  end.

(** ** parseFloat *)

Definition is_ascii_space (c : ascii) : bool :=
  match N_of_ascii c with
  | 9%N | 10%N | 11%N | 12%N | 13%N | 32%N => true
  | _ => false
  end.

(** The white space and line terminators that take two or three bytes:
    U+00A0; U+1680, U+2000..U+200A, U+2028, U+2029, U+202F, U+205F, U+3000
    and U+FEFF. *)
Definition is_space2 (a b : ascii) : bool :=
  (N_of_ascii a =? 194)%N && (N_of_ascii b =? 160)%N.

Definition is_space3 (a b c : ascii) : bool :=
  match N_of_ascii a, N_of_ascii b with
  | 225%N, 154%N => (N_of_ascii c =? 128)%N
  | 226%N, 128%N =>
      let n := N_of_ascii c in
      ((128 <=? n)%N && (n <=? 138)%N) ||
      (n =? 168)%N || (n =? 169)%N || (n =? 175)%N
  | 226%N, 129%N => (N_of_ascii c =? 159)%N
  | 227%N, 128%N => (N_of_ascii c =? 128)%N
  | 239%N, 187%N => (N_of_ascii c =? 191)%N
  | _, _ => false
  end.

(** [TrimString(s, start)] *)
Fixpoint trim_start (s : string) : string :=
  match s with
  | EmptyString => s
  | String a r1 =>
      if is_ascii_space a then trim_start r1 else
      match r1 with
      | EmptyString => s
      | String b r2 =>
          if is_space2 a b then trim_start r2 else
          match r2 with
          | EmptyString => s
          | String c r3 => if is_space3 a b c then trim_start r3 else s
          end
      end
  end.

(** An [ExponentPart] at the head of [s]: its value, when there is one. *)
Definition exponent_part (s : string) : option Z :=
  match s with
  | String c rest =>
      if Ascii.eqb c "e" || Ascii.eqb c "E" then
        let '(neg, body) :=
          match rest with
          | String "+" r => (false, r)
          | String "-" r => (true, r)
          | _ => (false, rest)
          end in
        let '(ds, _) := Text.span_digits body in
        match ds with
        | EmptyString => None
        | _ => let v := Text.digits_value 0 ds in
               Some (if neg then - v else v)
        end
      else None
  | EmptyString => None
  end.

(** The value of the longest prefix of [s] that is a
    [StrUnsignedDecimalLiteral], with the sign [neg] read before it. *)
Definition unsigned_literal (neg : bool) (s : string) : number :=
  if String.prefix "Infinity" s then S754_infinity neg else
  let '(int_ds, r1) := Text.span_digits s in
  let '(frac_ds, r2) :=
    match r1 with
    | String "." r => Text.span_digits r
    | _ => (EmptyString, r1)
    end in
  match int_ds ++ frac_ds with
  | EmptyString => S754_nan
  | ds =>
      let e := match exponent_part r2 with Some e => e | None => 0 end in
      of_decimal neg (Text.digits_value 0 ds)
                 (e - Z.of_nat (String.length frac_ds))
  end.

Definition parseFloat (s : string) : number :=
  match trim_start s with
  | String "+" r => unsigned_literal false r
  | String "-" r => unsigned_literal true r
  | t => unsigned_literal false t
  end.

(** ** The exact value of a finite Number, and its decimal expansion *)

(** The value [m * 2^e] as a fraction of two positive integers. *)
Definition fraction_of (m : positive) (e : Z) : Z * Z :=
  if 0 <=? e then (Zpos m * 2 ^ e, 1) else (Zpos m, 2 ^ (- e)).

(** [a / b * 10^p] as a fraction. *)
Definition scale10 (a b p : Z) : Z * Z :=
  if 0 <=? p then (a * 10 ^ p, b) else (a, b * 10 ^ (- p)).

(** The least [j] from which [a * 10^j >= b]. *)
Fixpoint leading_shift (fuel : nat) (a b j : Z) : Z :=
  match fuel with
  | O => j
  | S fuel' => if b <=? a then j else leading_shift fuel' (10 * a) b (j + 1)
  end.

(** The integer [n] with [10^(n-1) <= a / b < 10^n], for [a / b > 0]. *)
Definition decimal_exponent (a b : Z) : Z :=
  if b <=? a
  then Z.of_nat (String.length (Text.decimal (a / b)))
  else 1 - leading_shift (S (Z.to_nat (Z.log2 b))) a b 0.

(** ** Number::toString(x), radix 10 *)

(** The digits [s] and the exponent [n] of the shortest decimal that reads
    back as [x]: for [k = 1, 2, ...] the two [k]-digit decimals around [x]
    are tried; of two that read back as [x] the nearer to [x] is taken, the
    even one on a tie.  Seventeen digits always identify a binary64 value. *)
Fixpoint shortest_digits (fuel : nat) (x : number) (a b n0 k : Z) : Z * Z :=
  let '(p, q) := scale10 a b (k - n0) in
  let lo := p / q in
  let r := p mod q in
  let hi := lo + 1 in
  let nearest :=
    match 2 * r ?= q with
    | Lt => lo
    | Gt => hi
    | Eq => if Z.even lo then lo else hi
    end in
  let reads_back s := SFeqb (of_decimal false s (n0 - k)) x in
  let found :=
    if r =? 0 then Some lo
    else match reads_back lo, reads_back hi with
         | true, true => Some nearest
         | true, false => Some lo
         | false, true => Some hi
         | false, false => None
         end in
  let result s := if s =? 10 ^ k then (10 ^ (k - 1), n0 + 1) else (s, n0) in
  match found, fuel with
  | Some s, _ => result s
  | None, S fuel' => shortest_digits fuel' x a b n0 (k + 1)
  | None, O => result nearest
  end.

(** The shortest decimal of the finite value [m * 2^e]. *)
Definition shortest (m : positive) (e : Z) : Z * Z :=
  let '(a, b) := fraction_of m e in
  shortest_digits 16 (S754_finite false m e) a b (decimal_exponent a b) 1.

(** The text of an exponent: its sign, then its decimal digits. *)
Definition exponent_text (e : Z) : string :=
  (if 0 <=? e then "+" else "-") ++ Text.decimal (Z.abs e).

(** The digits [ds] of [s] laid out for the exponent [n]. *)
Definition layout (ds : string) (n : Z) : string :=
  let k := Z.of_nat (String.length ds) in
  if (k <=? n) && (n <=? 21) then
    ds ++ Text.repeat "0" (Z.to_nat (n - k))
  else if (0 <? n) && (n <=? 21) then
    Text.take (Z.to_nat n) ds ++ "." ++ Text.drop (Z.to_nat n) ds
  else if (-6 <? n) && (n <=? 0) then
    "0." ++ Text.repeat "0" (Z.to_nat (- n)) ++ ds
  else if k =? 1 then
    ds ++ "e" ++ exponent_text (n - 1)
  else
    Text.take 1 ds ++ "." ++ Text.drop 1 ds ++ "e" ++ exponent_text (n - 1).

Definition toString (x : number) : string :=
  match x with
  | S754_nan => "NaN"
  | S754_zero _ => "0"
  | S754_infinity neg => if neg then "-Infinity" else "Infinity"
  | S754_finite neg m e =>
      let '(s, n) := shortest m e in
      (if neg then "-" else "") ++ layout (Text.decimal s) n
  end.

(** ** Number.prototype.toExponential(fractionDigits), 0 <= fractionDigits <= 100 *)

(** [x] rounded to [f + 1] significant digits, the larger of two equally
    near candidates: the digits and the exponent. *)
Definition exponential_digits (a b f : Z) : Z * Z :=
  let e := decimal_exponent a b - 1 in
  let '(p, q) := scale10 a b (f - e) in
  let lo := p / q in
  let n := if q <=? 2 * (p mod q) then lo + 1 else lo in
  if n =? 10 ^ (f + 1) then (10 ^ f, e + 1) else (n, e).

Definition toExponential (x : number) (fractionDigits : Z) : string :=
  let f := fractionDigits in
  let mantissa ds :=
    if f =? 0 then ds else Text.take 1 ds ++ "." ++ Text.drop 1 ds in
  match x with
  | S754_nan | S754_infinity _ => toString x
  | S754_zero _ =>
      mantissa (Text.repeat "0" (Z.to_nat (f + 1))) ++ "e+0"
  | S754_finite neg m e =>
      let '(a, b) := fraction_of m e in
      let '(n, e10) := exponential_digits a b f in
      (if neg then "-" else "") ++
      mantissa (Text.decimal n) ++ "e" ++ exponent_text e10
  end.

(** ** toLocaleString('en-US', { maximumFractionDigits })

    The value formatted is the one the shortest decimal of [x] denotes.
    Grouping in threes with commas, a point before the fraction, at most
    [maximumFractionDigits] fraction digits rounded half away from zero, no
    zeros at the end of the fraction. *)
Definition toLocaleString_en_US (x : number) (maximumFractionDigits : Z) : string :=
  let f := maximumFractionDigits in
  match x with
  | S754_nan => "NaN"
  | S754_infinity neg => (if neg then "-" else "") ++ "∞"
  | S754_zero neg => (if neg then "-" else "") ++ "0"
  | S754_finite neg m e =>
      let '(s, n) := shortest m e in
      let k := Z.of_nat (String.length (Text.decimal s)) in
      let '(p, q) := scale10 s 1 (n - k + f) in
      let r := if q <=? 2 * (p mod q) then p / q + 1 else p / q in
      let int_part := Text.decimal (r / 10 ^ f) in
      let frac := Text.decimal (r mod 10 ^ f) in
      let padded :=
        Text.repeat "0" (Z.to_nat f - String.length frac) ++ frac in
      let frac_part := Text.strip_trailing_zeros padded in
      (if neg then "-" else "") ++ Text.group3 int_part ++
      match frac_part with
      | EmptyString => ""
      | _ => "." ++ frac_part
      end
  end.

End JSNumber.

(* ================================================================== *)
(** * The calculator *)
(* ================================================================== *)

Module Calculator.

Import JSNumber.
Local Open Scope string_scope.

(** The four variables closed over by the [CalculatorState] module. *)
Record State : Type := mkState {
  currentOperand : string;
  previousOperand : string;
  operation : option string;        (* [None] is [null] *)
  shouldResetScreen : bool
}.

(** What the script can change: its state, the text of the two display
    elements, and the alerts shown to the user so far, oldest first. *)
Record World : Type := mkWorld {
  store : State;
  currentOperandElement : string;
  previousOperandElement : string;
  alerts : list string
}.

(** ** Commands over the world *)

Definition M (A : Type) : Type := World -> A * World.

Definition ret {A} (a : A) : M A := fun w => (a, w).
Definition bind {A B} (m : M A) (k : A -> M B) : M B :=
  fun w => let '(a, w') := m w in k a w'.
Definition exec {A} (m : M A) (w : World) : World := snd (m w).
Definition eval {A} (m : M A) (w : World) : A := fst (m w).

Notation "x <- m ;; k" := (bind m (fun x => k))
  (at level 61, m at next level, right associativity).
Notation "m ;; k" := (bind m (fun _ => k))
  (at level 61, right associativity).

Definition modify_store (f : State -> State) : M unit :=
  fun w => (tt, mkWorld (f (store w)) (currentOperandElement w)
                        (previousOperandElement w) (alerts w)).

(** [alert(message)] *)
Definition alert (message : string) : M unit :=
  fun w => (tt, mkWorld (store w) (currentOperandElement w)
                        (previousOperandElement w) (alerts w ++ [message])%list).

(** The three operator literals that are not ASCII, byte for byte as
    script.js holds them in [compute] and in the key map.  The file stores
    the signs for minus (U+2212), times (U+00D7) and divide (U+00F7) doubly
    encoded; these literals, and not the plain signs, are the operator
    symbols of the script. *)
Definition MINUS : string := "âˆ’".
Definition TIMES : string := "Ã—".
Definition DIVIDE : string := "Ã·".

(** ** CalculatorState *)

Module CalculatorState.

Definition getCurrentOperand : M string := fun w => (currentOperand (store w), w).
Definition getPreviousOperand : M string := fun w => (previousOperand (store w), w).
Definition getOperation : M (option string) := fun w => (operation (store w), w).
Definition getShouldResetScreen : M bool := fun w => (shouldResetScreen (store w), w).

Definition setCurrentOperand (value : string) : M unit :=
  modify_store (fun s => mkState value (previousOperand s) (operation s)
                                 (shouldResetScreen s)).
Definition setPreviousOperand (value : string) : M unit :=
  modify_store (fun s => mkState (currentOperand s) value (operation s)
                                 (shouldResetScreen s)).
Definition setOperation (value : option string) : M unit :=
  modify_store (fun s => mkState (currentOperand s) (previousOperand s) value
                                 (shouldResetScreen s)).
Definition setShouldResetScreen (value : bool) : M unit :=
  modify_store (fun s => mkState (currentOperand s) (previousOperand s)
                                 (operation s) value).

Definition initial : State := mkState "0" "" None false.

Definition reset : M unit := modify_store (fun _ => initial).

End CalculatorState.

(** ** DisplayController *)

Module DisplayController.

Definition formatNumber (number : string) : string :=
  if number =? "" then "" else
  let floatNumber := parseFloat number in
  if isNaN floatNumber then "0" else
  if gt (Math_abs floatNumber) (of_decimal false 999999999999 0) ||
     (lt (Math_abs floatNumber) (of_decimal false 1 (-6)) &&
      strict_neq floatNumber zero)
  then toExponential floatNumber 6
  else toLocaleString_en_US floatNumber 10.

Definition updateDisplay : M unit :=
  current <- CalculatorState.getCurrentOperand ;;
  previous <- CalculatorState.getPreviousOperand ;;
  operation <- CalculatorState.getOperation ;;
  fun w =>
    (tt, mkWorld (store w)
           (formatNumber current)
           (match operation with
            | Some op =>
                if negb (previous =? "")
                then formatNumber previous ++ " " ++ op
                else ""
            | None => ""
            end)
           (alerts w)).

Definition update : M unit := updateDisplay.

End DisplayController.

(** ** CalculationEngine *)

Module CalculationEngine.

Definition compute (prev current operator : string) : M number :=
  let prevNum := parseFloat prev in
  let currentNum := parseFloat current in
  if isNaN prevNum || isNaN currentNum then ret zero else
  if operator =? "+" then ret (add prevNum currentNum)
  else if operator =? MINUS then ret (sub prevNum currentNum)
  else if operator =? TIMES then ret (mul prevNum currentNum)
  else if operator =? DIVIDE then
    if strict_eq currentNum zero
    then alert "Error: Cannot divide by zero" ;; ret zero
    else ret (div prevNum currentNum)
  else ret currentNum.

Definition calculate : M unit :=
  current <- CalculatorState.getCurrentOperand ;;
  previous <- CalculatorState.getPreviousOperand ;;
  operation <- CalculatorState.getOperation ;;
  match operation with
  | None => ret tt
  | Some op =>
      if previous =? "" then ret tt else
      result <- compute previous current op ;;
      CalculatorState.setCurrentOperand (toString result) ;;
      CalculatorState.setOperation None ;;
      CalculatorState.setPreviousOperand "" ;;
      CalculatorState.setShouldResetScreen true
  end.

End CalculationEngine.

(** ** InputHandler *)

Module InputHandler.

Definition appendNumber (number : string) : M unit :=
  reset <- CalculatorState.getShouldResetScreen ;;
  (if reset
   then CalculatorState.setCurrentOperand "0" ;;
        CalculatorState.setShouldResetScreen false
   else ret tt) ;;
  current <- CalculatorState.getCurrentOperand ;;
  if (number =? ".") && Text.includes current "." then ret tt else
  (if (current =? "0") && negb (number =? ".")
   then CalculatorState.setCurrentOperand number
   else CalculatorState.setCurrentOperand (current ++ number)) ;;
  DisplayController.update.

Definition setOperation (operator : string) : M unit :=
  current <- CalculatorState.getCurrentOperand ;;
  previous <- CalculatorState.getPreviousOperand ;;
  existingOperation <- CalculatorState.getOperation ;;
  if current =? "" then ret tt else
  reset <- CalculatorState.getShouldResetScreen ;;
  (if negb (previous =? "") &&
      match existingOperation with Some _ => true | None => false end &&
      negb reset
   then CalculationEngine.calculate
   else ret tt) ;;
  CalculatorState.setOperation (Some operator) ;;
  current' <- CalculatorState.getCurrentOperand ;;
  CalculatorState.setPreviousOperand current' ;;
  CalculatorState.setShouldResetScreen true ;;
  DisplayController.update.

Definition clear : M unit :=
  CalculatorState.reset ;;
  DisplayController.update.

Definition backspace : M unit :=
  current <- CalculatorState.getCurrentOperand ;;
  reset <- CalculatorState.getShouldResetScreen ;;
  if reset then clear else
  (if (1 <? String.length current)%nat
   then CalculatorState.setCurrentOperand (Text.slice_0_m1 current)
   else CalculatorState.setCurrentOperand "0") ;;
  DisplayController.update.

Definition equals : M unit :=
  CalculationEngine.calculate ;;
  DisplayController.update.

End InputHandler.

(** ** The application *)

(** [App.init]: the display is drawn once, then the listeners are set. *)
Definition App_init : M unit := DisplayController.update.

(** The world once the page is loaded. *)
Definition initial_world : World :=
  exec App_init (mkWorld CalculatorState.initial "" "" []).

(** What the listeners make of the user's clicks and keys. *)
Inductive action : Type :=
| AppendDigit (token : string)
| SetOperator (op : string)
| Equals
| Clear
| Backspace.

Definition step (a : action) : M unit :=
  match a with
  | AppendDigit token => InputHandler.appendNumber token
  | SetOperator op => InputHandler.setOperation op
  | Equals => InputHandler.equals
  | Clear => InputHandler.clear
  | Backspace => InputHandler.backspace
  end.

Fixpoint run (actions : list action) (w : World) : World :=
  match actions with
  | [] => w
  | a :: rest => run rest (exec (step a) w)
  end.

(** The tokens of the number keys: a decimal digit or the point. *)
Definition is_token (token : string) : bool :=
  match token with
  | String c EmptyString => Text.is_digit c || Ascii.eqb c "."
  | _ => false
  end.

Definition valid (a : action) : bool :=
  match a with
  | AppendDigit token => is_token token
  | _ => true
  end.

(** The worlds the user can bring about. *)
Inductive reachable : World -> Prop :=
| reachable_initial : reachable initial_world
| reachable_step (a : action) (w : World) :
    reachable w -> valid a = true -> reachable (exec (step a) w).

End Calculator.

(* ================================================================== *)
(** * The event listeners *)
(* ================================================================== *)

Module EventListeners.

Import Calculator.
Local Open Scope string_scope.

(** The page is not part of the script: it is a parameter of the listeners.
    What the script reads of it are the elements that carry one of the
    attributes [data-number], [data-operator] and [data-action], in document
    order, each with the values of its attributes.  The elements are taken
    not to be nested in one another, so that a click reaches the listeners
    of one element.  The class that [animateButton] adds and removes is not
    part of the world. *)
Record Button : Type := mkButton {
  data_number : option string;
  data_operator : option string;
  data_action : option string
}.

Inductive attribute : Type := DataNumber | DataOperator | DataAction.

(** The selector [[attribute="value"]]. *)
Definition selector : Type := (attribute * string)%type.

Definition dataset (a : attribute) (button : Button) : option string :=
  match a with
  | DataNumber => data_number button
  | DataOperator => data_operator button
  | DataAction => data_action button
  end.

Definition matches (sel : selector) (button : Button) : bool :=
  match dataset (fst sel) button with
  | Some value => value =? snd sel
  | None => false
  end.

(** [document.querySelector(selector)]: the first match in document order. *)
Definition querySelector (document : list Button) (sel : selector)
  : option Button :=
  find (matches sel) document.

(** A click on a button runs the listeners [initClickListeners] has put on
    it, in the order they were added: the one of the number buttons, the one
    of the operator buttons, the one of the action buttons. *)
Definition click (button : Button) : M unit :=
  (match data_number button with
   | Some number => InputHandler.appendNumber number
   | None => ret tt
   end) ;;
  (match data_operator button with
   | Some operator => InputHandler.setOperation operator
   | None => ret tt
   end) ;;
  (match data_action button with
   | Some action =>
       if action =? "clear" then InputHandler.clear
       else if action =? "backspace" then InputHandler.backspace
       else if action =? "equals" then InputHandler.equals
       else ret tt
   | None => ret tt
   end).

(** The table of [mapKeyToButton]. *)
Definition keyMap_entries : list (string * selector) :=
  [ ("0", (DataNumber, "0")); ("1", (DataNumber, "1"));
    ("2", (DataNumber, "2")); ("3", (DataNumber, "3"));
    ("4", (DataNumber, "4")); ("5", (DataNumber, "5"));
    ("6", (DataNumber, "6")); ("7", (DataNumber, "7"));
    ("8", (DataNumber, "8")); ("9", (DataNumber, "9"));
    (".", (DataNumber, "."));
    ("+", (DataOperator, "+"));
    ("-", (DataOperator, "âˆ’"));
    ("*", (DataOperator, "Ã—"));
    ("/", (DataOperator, "Ã·"));
    ("Enter", (DataAction, "equals"));
    ("=", (DataAction, "equals"));
    ("Backspace", (DataAction, "backspace"));
    ("Delete", (DataAction, "backspace"));
    ("Escape", (DataAction, "clear"));
    ("c", (DataAction, "clear"));
    ("C", (DataAction, "clear")) ].

(** [keyMap[key]], for the keys a keyboard event can name. *)
Definition keyMap (key : string) : option selector :=
  option_map snd (find (fun entry => fst entry =? key) keyMap_entries).

Definition mapKeyToButton (document : list Button) (key : string)
  : option Button :=
  match keyMap key with
  | None => None
  | Some sel => querySelector document sel
  end.

(** The keys whose default action the listener prevents. *)
Definition prevents_default (key : string) : bool :=
  existsb (String.eqb key) ["/"; "*"; "-"; "+"; "Enter"; "Escape"].

(** The [keydown] listener. *)
Definition keydown (document : list Button) (key : string) : M unit :=
  match mapKeyToButton document key with
  | None => ret tt
  | Some button => click button
  end.

(** A sequence of key presses. *)
Fixpoint press (document : list Button) (keys : list string) (w : World)
  : World :=
  match keys with
  | [] => w
  | key :: rest => press document rest (exec (keydown document key) w)
  end.

(** The number buttons of the page carry the tokens of [appendNumber]. *)
Definition number_buttons_valid (document : list Button) : Prop :=
  forall button number,
    In button document -> data_number button = Some number ->
    is_token number = true.

End EventListeners.

(* ================================================================== *)
(** * Vocabulary of the properties *)
(* ================================================================== *)

Module Properties.

Import Text JSNumber Calculator.
Local Open Scope string_scope.

(** What every reachable state satisfies: the current operand is not empty
    and has at most one point, and an operation is pending exactly when
    there is a previous operand. *)
Definition well_formed (s : State) : Prop :=
  currentOperand s <> "" /\
  (count "." (currentOperand s) <= 1)%nat /\
  (operation s = None <-> previousOperand s = "").

(** The test [setOperation] makes before it folds: a previous operand, an
    operation, and no reset pending. *)
Definition folds (s : State) : bool :=
  negb (previousOperand s =? "") &&
  match operation s with Some _ => true | None => false end &&
  negb (shouldResetScreen s).

(** The text [calculate] stores when an operation is pending: the text of
    what [compute] returns for the two operands. *)
Definition pending_result (w : World) : string :=
  match operation (store w) with
  | Some op =>
      toString (eval (CalculationEngine.compute (previousOperand (store w))
                                                (currentOperand (store w)) op) w)
  | None => currentOperand (store w)
  end.

(** The operands are ASCII text. *)
Definition ascii_operands (s : State) : Prop :=
  is_ascii (currentOperand s) = true /\ is_ascii (previousOperand s) = true.

(** The leading-zero-replacement rule in the words of the specification:
    on "0" a token other than the point replaces the operand, otherwise the
    token is appended. *)
Definition enter (current token : string) : string :=
  if (current =? "0") && negb (token =? ".") then token else current ++ token.

(** The concatenation of the tokens without its leading zeros, with "0" put
    back where nothing or a leading point is left. *)
Fixpoint strip_leading_zeros (s : string) : string :=
  match s with
  | String c rest => if Ascii.eqb c "0" then strip_leading_zeros rest else s
  | EmptyString => s
  end.

Definition entered (tokens : list string) : string :=
  match strip_leading_zeros (String.concat "" tokens) with
  | EmptyString => "0"
  | String c rest =>
      if Ascii.eqb c "." then String "0" (String c rest) else String c rest
  end.

(** The state the user reaches with 5, divide, 0. *)
Definition five_divided_by_zero : World :=
  run [AppendDigit "5"; SetOperator DIVIDE; AppendDigit "0"] initial_world.

(** The test of [formatNumber] for exponential notation: a magnitude
    above 999999999999, or below 0.000001 without being zero. *)
Definition out_of_range (x : number) : bool :=
  gt (Math_abs x) (of_decimal false 999999999999 0) ||
  (lt (Math_abs x) (of_decimal false 1 (-6)) && strict_neq x zero).

(** The same test with the bound of the specification, 1e12. *)
Definition out_of_range_1e12 (x : number) : bool :=
  gt (Math_abs x) (of_decimal false 1 12) ||
  (lt (Math_abs x) (of_decimal false 1 (-6)) && strict_neq x zero).

(** The text [updateDisplay] writes for a state: the current line and the
    line of the previous operand with its operator. *)
Definition current_line (s : State) : string :=
  DisplayController.formatNumber (currentOperand s).

Definition previous_line (s : State) : string :=
  match operation s with
  | Some op =>
      if negb (previousOperand s =? "")
      then DisplayController.formatNumber (previousOperand s) ++ " " ++ op
      else ""
  | None => ""
  end.

(** The display shows the state. *)
Definition in_sync (w : World) : Prop :=
  currentOperandElement w = current_line (store w) /\
  previousOperandElement w = previous_line (store w).

(** Two worlds that differ at most in the alerts shown so far. *)
Definition same_view (w1 w2 : World) : Prop :=
  store w1 = store w2 /\
  currentOperandElement w1 = currentOperandElement w2 /\
  previousOperandElement w1 = previousOperandElement w2.

(** The one message the script alerts. *)
Definition division_by_zero_message : string := "Error: Cannot divide by zero".

(** A page with one button for each selector of the key map. *)
Definition keypad : list EventListeners.Button :=
  (map (fun n => EventListeners.mkButton (Some n) None None)
       ["7"; "8"; "9"; "4"; "5"; "6"; "1"; "2"; "3"; "0"; "."] ++
   map (fun o => EventListeners.mkButton None (Some o) None)
       [DIVIDE; TIMES; MINUS; "+"] ++
   map (fun a => EventListeners.mkButton None None (Some a))
       ["clear"; "backspace"; "equals"])%list.

(** What [compute] makes of two numbers, neither of them NaN. *)
Definition operator_result (operator : string) (x y : number) : number :=
  if operator =? "+" then add x y
  else if operator =? MINUS then sub x y
  else if operator =? TIMES then mul x y
  else if operator =? DIVIDE then (if strict_eq y zero then zero else div x y)
  else y.

(** Typing [a], an operator, [b], a second operator, [c] and the equals
    key. *)
Definition chained_entry (a : list string) (op1 : string) (b : list string)
                         (op2 : string) (c : list string) : list action :=
  (map AppendDigit a ++ [SetOperator op1] ++ map AppendDigit b ++
   [SetOperator op2] ++ map AppendDigit c ++ [Equals])%list.

(** Typing an operand [a], an operator, an operand [b] and the equals key. *)
Definition binary_entry (a : list string) (op : string) (b : list string)
  : list action :=
  (map AppendDigit a ++ [SetOperator op] ++ map AppendDigit b ++ [Equals])%list.

End Properties.

(* ================================================================== *)
(** * Facts about texts and about the text of a Number *)
(* ================================================================== *)

Section TextFacts.

Import Text.

Local Open Scope string_scope.

Lemma count_app (c : ascii) (s t : string) :
  count c (s ++ t) = (count c s + count c t)%nat.
Proof.
  induction s as [|d s IH]; simpl; [reflexivity|].
  rewrite IH. lia.
Qed.

Lemma is_digit_not (c d : ascii) :
  is_digit d = true -> is_digit c = false -> Ascii.eqb d c = false.
Proof.
  intros Hd Hc. destruct (Ascii.eqb d c) eqn:E; [|reflexivity].
  apply Ascii.eqb_eq in E. subst. congruence.
Qed.

(** A string of digits holds no character that is not a digit. *)
Lemma all_digits_count (c : ascii) (s : string) :
  is_digit c = false -> all_digits s = true -> count c s = O.
Proof.
  intros Hc. induction s as [|d s IH]; simpl; [reflexivity|].
  intros H. apply andb_prop in H. destruct H as [Hd Hs].
  rewrite (is_digit_not c d Hd Hc), (IH Hs). reflexivity.
Qed.

Lemma all_digits_app (s t : string) :
  all_digits (s ++ t) = all_digits s && all_digits t.
Proof.
  induction s as [|d s IH]; simpl; [reflexivity|].
  rewrite IH, andb_assoc. reflexivity.
Qed.

Lemma all_digits_take (n : nat) (s : string) :
  all_digits s = true -> all_digits (take n s) = true.
Proof.
  revert s. induction n as [|n IH]; intros [|d s]; simpl; auto.
  intros H. apply andb_prop in H. destruct H as [Hd Hs].
  rewrite Hd, (IH s Hs). reflexivity.
Qed.

Lemma all_digits_drop (n : nat) (s : string) :
  all_digits s = true -> all_digits (drop n s) = true.
Proof.
  revert s. induction n as [|n IH]; intros [|d s]; simpl; auto.
  intros H. apply andb_prop in H. destruct H as [_ Hs]. auto.
Qed.

Lemma all_digits_repeat_0 (n : nat) : all_digits (repeat "0" n) = true.
Proof. induction n; simpl; auto. Qed.

Lemma all_digits_uint (d : Decimal.uint) :
  all_digits (NilEmpty.string_of_uint d) = true.
Proof. induction d; simpl; auto. Qed.

Lemma all_digits_decimal (n : Z) : all_digits (decimal n) = true.
Proof. apply all_digits_uint. Qed.

Lemma uint_text_nonempty (d : Decimal.uint) :
  d <> Decimal.Nil -> NilEmpty.string_of_uint d <> "".
Proof. destruct d; simpl; congruence. Qed.

Lemma decimal_nonempty (n : Z) : decimal n <> "".
Proof.
  unfold decimal. apply uint_text_nonempty.
  destruct (Z.to_N n) as [|p]; simpl; [discriminate|].
  apply Unsigned.to_uint_nonnil.
Qed.

Lemma app_nonempty_l (s t : string) : s <> "" -> s ++ t <> "".
Proof. destruct s; simpl; congruence. Qed.

Lemma includes_count (c : ascii) (s : string) :
  includes s (String c "") = (0 <? count c s)%nat.
Proof.
  induction s as [|d s IH]; simpl; [reflexivity|].
  rewrite IH. destruct (ascii_dec c d) as [->|Hne].
  - rewrite Ascii.eqb_refl. destruct s; reflexivity.
  - destruct (Ascii.eqb d c) eqn:E; [|reflexivity].
    apply Ascii.eqb_eq in E. congruence.
Qed.

Lemma count_slice_0_m1 (c : ascii) (s : string) :
  (count c (slice_0_m1 s) <= count c s)%nat.
Proof.
  induction s as [|d s IH]; simpl; [lia|].
  destruct s as [|e s']; [simpl; lia|].
  change (count c (String d (slice_0_m1 (String e s')))) with
    ((if Ascii.eqb d c then 1 else 0) + count c (slice_0_m1 (String e s')))%nat.
  lia.
Qed.

Lemma slice_0_m1_nonempty (s : string) :
  (1 < String.length s)%nat -> slice_0_m1 s <> "".
Proof.
  destruct s as [|d [|e s']]; simpl; try lia. congruence.
Qed.

Lemma append_assoc_text (a b c : string) : (a ++ b) ++ c = a ++ (b ++ c).
Proof.
  induction a as [|x a IH]; simpl; [reflexivity|]. rewrite IH. reflexivity.
Qed.

Lemma is_ascii_app (s t : string) :
  is_ascii (s ++ t) = is_ascii s && is_ascii t.
Proof.
  induction s as [|c s IH]; simpl; [reflexivity|].
  rewrite IH, andb_assoc. reflexivity.
Qed.

Lemma is_digit_ascii (c : ascii) :
  is_digit c = true -> (N_of_ascii c <? 128)%N = true.
Proof.
  unfold is_digit. intros H. apply andb_prop in H. destruct H as [_ H].
  apply N.leb_le in H. apply N.ltb_lt. lia.
Qed.

Lemma all_digits_ascii (s : string) : all_digits s = true -> is_ascii s = true.
Proof.
  induction s as [|c s IH]; simpl; [reflexivity|]. intros H.
  apply andb_prop in H. destruct H as [Hc Hs].
  rewrite (is_digit_ascii c Hc), (IH Hs). reflexivity.
Qed.

Lemma is_ascii_slice_0_m1 (s : string) :
  is_ascii s = true -> is_ascii (slice_0_m1 s) = true.
Proof.
  induction s as [|c s IH]; [reflexivity|].
  cbn [is_ascii slice_0_m1]. intros H.
  apply andb_prop in H. destruct H as [Hc Hs].
  destruct s as [|d s']; [reflexivity|].
  cbn [is_ascii] in *. rewrite Hc. apply IH, Hs.
Qed.

End TextFacts.

Section NumberTextFacts.

Import Text JSNumber.

Local Open Scope string_scope.

Lemma dot_not_digit : is_digit "." = false.
Proof. reflexivity. Qed.

Lemma e_not_digit : is_digit "e" = false.
Proof. reflexivity. Qed.

Lemma count_exponent_text (c : ascii) (e : Z) :
  is_digit c = false -> Ascii.eqb "+" c = false -> Ascii.eqb "-" c = false ->
  count c (exponent_text e) = O.
Proof.
  intros Hc Hp Hm. unfold exponent_text. rewrite count_app.
  rewrite (all_digits_count c _ Hc (all_digits_decimal _)).
  destruct (0 <=? e)%Z; cbn [count]; rewrite ?Hp, ?Hm; reflexivity.
Qed.

(** The layout of a digit string has at most one point and is not empty. *)
Lemma layout_dots (ds : string) (n : Z) :
  all_digits ds = true -> (count "." (layout ds n) <= 1)%nat.
Proof.
  intros Hds. unfold layout.
  repeat match goal with |- context [if ?b then _ else _] => destruct b end;
    rewrite ?count_app;
    rewrite ?count_exponent_text by reflexivity;
    rewrite ?(all_digits_count "." _ dot_not_digit (all_digits_take _ _ Hds));
    rewrite ?(all_digits_count "." _ dot_not_digit (all_digits_drop _ _ Hds));
    rewrite ?(all_digits_count "." _ dot_not_digit (all_digits_repeat_0 _));
    rewrite ?(all_digits_count "." _ dot_not_digit Hds);
    simpl; lia.
Qed.

Lemma layout_nonempty (ds : string) (n : Z) : ds <> "" -> layout ds n <> "".
Proof.
  intros Hds. unfold layout.
  repeat match goal with |- context [if ?b then _ else _] => destruct b end;
    try (apply app_nonempty_l; assumption);
    try discriminate.
  - destruct (take (Z.to_nat n) ds); discriminate.
  - destruct ds; [congruence | discriminate].
Qed.

(** The text of a Number has at most one point. *)
Lemma toString_dots (x : number) : (count "." (toString x) <= 1)%nat.
Proof.
  destruct x as [s|s| |s m e]; simpl; try lia.
  - destruct s; simpl; lia.
  - destruct (shortest m e) as [d n]. rewrite count_app.
    pose proof (layout_dots (decimal d) n (all_digits_decimal d)).
    destruct s; simpl; lia.
Qed.

(** The text of a Number is never empty. *)
Lemma toString_nonempty (x : number) : toString x <> "".
Proof.
  destruct x as [s|s| |s m e]; simpl; try discriminate.
  - destruct s; discriminate.
  - destruct (shortest m e) as [d n].
    destruct s; simpl; [discriminate|].
    apply layout_nonempty, decimal_nonempty.
Qed.

(** The text of a Number is ASCII. *)
Lemma layout_ascii (ds : string) (n : Z) :
  all_digits ds = true -> is_ascii (layout ds n) = true.
Proof.
  intros Hds. unfold layout, exponent_text.
  repeat match goal with |- context [if ?b then _ else _] => destruct b end;
    rewrite ?is_ascii_app;
    rewrite ?(all_digits_ascii _ (all_digits_take _ _ Hds));
    rewrite ?(all_digits_ascii _ (all_digits_drop _ _ Hds));
    rewrite ?(all_digits_ascii _ (all_digits_repeat_0 _));
    rewrite ?(all_digits_ascii _ (all_digits_decimal _));
    rewrite ?(all_digits_ascii _ Hds);
    reflexivity.
Qed.

Lemma toString_ascii (x : number) : is_ascii (toString x) = true.
Proof.
  destruct x as [s|s| |s m e]; simpl; try reflexivity.
  - destruct s; reflexivity.
  - destruct (shortest m e) as [d n]. rewrite is_ascii_app.
    rewrite (layout_ascii _ n (all_digits_decimal d)).
    destruct s; reflexivity.
Qed.

(** Exponential notation carries the letter e, grouped decimal notation
    does not. *)
Lemma count_group3 (c : ascii) (s : string) :
  Ascii.eqb "," c = false -> count c (group3 s) = count c s.
Proof.
  intros Hc. induction s as [|d s IH]; [reflexivity|].
  cbn [group3 count].
  destruct ((0 <? String.length s)%nat && (String.length s mod 3 =? 0)%nat);
    cbn [count]; rewrite ?Hc, IH; reflexivity.
Qed.

Lemma all_digits_strip_trailing_zeros (s : string) :
  all_digits s = true -> all_digits (strip_trailing_zeros s) = true.
Proof.
  induction s as [|d s IH]; [reflexivity|].
  cbn [all_digits strip_trailing_zeros]. intros H.
  apply andb_prop in H. destruct H as [Hd Hs]. specialize (IH Hs).
  destruct (strip_trailing_zeros s) as [|x rest].
  - destruct (Ascii.eqb d "0"); cbn [all_digits]; rewrite ?Hd; reflexivity.
  - cbn [all_digits] in *. rewrite Hd, IH. reflexivity.
Qed.

Lemma includes_middle (c : ascii) (s t : string) :
  includes (s ++ String c t) (String c "") = true.
Proof.
  rewrite includes_count, count_app. cbn [count]. rewrite Ascii.eqb_refl.
  apply Nat.ltb_lt. lia.
Qed.

Lemma toExponential_has_e (x : number) (f : Z) :
  isFinite x = true -> includes (toExponential x f) "e" = true.
Proof.
  destruct x as [s|s| |s m e]; try discriminate; intros _; unfold toExponential.
  - apply includes_middle.
  - destruct (fraction_of m e) as [a b].
    destruct (exponential_digits a b f) as [n e10].
    rewrite <- append_assoc_text. apply includes_middle.
Qed.

Lemma toLocaleString_no_e (x : number) (f : Z) :
  includes (toLocaleString_en_US x f) "e" = false.
Proof.
  rewrite includes_count. apply Nat.ltb_ge.
  destruct x as [s|s| |s m e]; unfold toLocaleString_en_US.
  - destruct s; cbv; lia.
  - destruct s; cbv; lia.
  - cbv; lia.
  - destruct (shortest m e) as [d n].
    destruct (scale10 d 1 _) as [p q].
    set (r := if (q <=? 2 * (p mod q))%Z then _ else _).
    set (padded := repeat "0" _ ++ decimal (r mod 10 ^ f)).
    assert (Hpad : all_digits (strip_trailing_zeros padded) = true).
    { apply all_digits_strip_trailing_zeros. unfold padded.
      rewrite all_digits_app, all_digits_repeat_0, all_digits_decimal.
      reflexivity. }
    rewrite !count_app, count_group3 by reflexivity.
    rewrite (all_digits_count "e" _ e_not_digit (all_digits_decimal _)).
    assert (Hfrac : count "e" (match strip_trailing_zeros padded with
                               | "" => ""
                               | String _ _ => "." ++ strip_trailing_zeros padded
                               end) = O).
    { destruct (strip_trailing_zeros padded) eqn:E; [reflexivity|].
      rewrite count_app, (all_digits_count "e" _ e_not_digit Hpad).
      reflexivity. }
    rewrite Hfrac. destruct s; cbv; lia.
Qed.

(** ** Numerals that start with a digit parse to a number *)

Lemma shr_1_nonneg (mrs : shr_record) :
  (0 <= shr_m mrs)%Z -> (0 <= shr_m (shr_1 mrs))%Z.
Proof.
  destruct mrs as [m r s]. destruct m as [|[p|p|]|p]; simpl; lia.
Qed.

Lemma iter_shr_1_nonneg (p : positive) (mrs : shr_record) :
  (0 <= shr_m mrs)%Z -> (0 <= shr_m (iter_pos shr_1 p mrs))%Z.
Proof.
  revert mrs. induction p as [p IH|p IH|]; intros mrs H; simpl.
  - apply IH, IH, shr_1_nonneg, H.
  - apply IH, IH, H.
  - apply shr_1_nonneg, H.
Qed.

Lemma shr_fexp_nonneg (m e : Z) (l : location) :
  (0 <= m)%Z -> (0 <= shr_m (fst (shr_fexp prec emax m e l)))%Z.
Proof.
  intros Hm. unfold shr_fexp, shr.
  assert (H0 : (0 <= shr_m (shr_record_of_loc m l))%Z).
  { destruct l as [|[]]; simpl; exact Hm. }
  destruct (fexp prec emax (Zdigits2 m + e) - e)%Z; simpl; try exact H0.
  apply iter_shr_1_nonneg, H0.
Qed.

Lemma binary_round_aux_is_number (s : bool) (mx ex : Z) (lx : location) :
  (0 <= mx)%Z -> isNaN (binary_round_aux prec emax s mx ex lx) = false.
Proof.
  intros Hm. unfold binary_round_aux.
  pose proof (shr_fexp_nonneg mx ex lx Hm) as H1.
  destruct (shr_fexp prec emax mx ex lx) as [mrs' e']. simpl in H1.
  assert (H2 : (0 <= round_nearest_even (shr_m mrs') (loc_of_shr_record mrs'))%Z).
  { unfold round_nearest_even.
    destruct (loc_of_shr_record mrs') as [|[]]; try lia.
    destruct (Z.even (shr_m mrs')); lia. }
  pose proof (shr_fexp_nonneg _ e' loc_Exact H2) as H3.
  destruct (shr_fexp prec emax _ e' loc_Exact) as [mrs'' e'']. simpl in H3.
  destruct (shr_m mrs'') as [|m|m]; [reflexivity | | lia].
  destruct (e'' <=? emax - prec)%Z; reflexivity.
Qed.

Lemma of_decimal_is_number (neg : bool) (d k : Z) :
  isNaN (of_decimal neg d k) = false.
Proof.
  unfold of_decimal. destruct d as [|p|p]; try reflexivity.
  assert (Hround : forall m e, isNaN (binary_round prec emax neg m e) = false).
  { intros m e. unfold binary_round.
    destruct (shl_align m e _) as [mz ez].
    apply binary_round_aux_is_number. lia. }
  destruct k as [|q|q]; try apply Hround.
  unfold of_ratio, SFdiv_core_binary.
  set (e' := Z.min _ _). set (m' := match (0 - 0 - e')%Z with
                                    | Z0 => Zpos p
                                    | Zpos _ => Z.shiftl (Zpos p) (0 - 0 - e')
                                    | Zneg _ => 0%Z
                                    end).
  assert (Hm' : (0 <= m')%Z).
  { unfold m'. destruct (0 - 0 - e')%Z; try lia.
    apply Z.shiftl_nonneg. lia. }
  pose proof (Z.div_pos m' (Zpos (10 ^ q)) Hm' ltac:(lia)) as Hq.
  unfold Z.div in Hq.
  destruct (Z.div_eucl m' (Zpos (10 ^ q))) as [quo r].
  apply binary_round_aux_is_number, Hq.
Qed.

Lemma trim_start_digit (d : ascii) (rest : string) :
  is_digit d = true -> trim_start (String d rest) = String d rest.
Proof.
  intros Hd.
  destruct d as [[] [] [] [] [] [] [] []]; try discriminate Hd;
    destruct rest as [|b [|c r3]]; reflexivity.
Qed.

(** A string that starts with a decimal digit never parses to NaN. *)
Lemma parseFloat_digit_is_number (d : ascii) (rest : string) :
  is_digit d = true -> isNaN (parseFloat (String d rest)) = false.
Proof.
  intros Hd. unfold parseFloat. rewrite (trim_start_digit d rest Hd).
  assert (E : match String d rest with
              | String "+" r => unsigned_literal false r
              | String "-" r => unsigned_literal true r
              | t => unsigned_literal false t
              end = unsigned_literal false (String d rest)).
  { destruct d as [[] [] [] [] [] [] [] []]; try discriminate Hd; reflexivity. }
  rewrite E. unfold unsigned_literal.
  assert (P : String.prefix "Infinity" (String d rest) = false).
  { destruct d as [[] [] [] [] [] [] [] []]; try discriminate Hd; reflexivity. }
  rewrite P. cbn [span_digits]. rewrite Hd.
  destruct (span_digits rest) as [ds tl].
  destruct (match tl with
            | String "." r => span_digits r
            | _ => (EmptyString, tl)
            end) as [frac_ds r2].
  cbn [append]. apply of_decimal_is_number.
Qed.

(** ** Arithmetic of the host *)

Lemma add_comm (x y : number) : add x y = add y x.
Proof.
  unfold add.
  destruct x as [sx|sx| |sx mx ex], y as [sy|sy| |sy my ey];
    try reflexivity; try (destruct sx, sy; reflexivity).
  unfold SFadd. rewrite (Z.min_comm ey ex), Z.add_comm. reflexivity.
Qed.

Lemma mul_comm (x y : number) : mul x y = mul y x.
Proof.
  unfold mul.
  destruct x as [sx|sx| |sx mx ex], y as [sy|sy| |sy my ey];
    try reflexivity; try (destruct sx, sy; reflexivity).
  unfold SFmul. rewrite (xorb_comm sy sx), (Pos.mul_comm my mx), (Z.add_comm ey ex).
  reflexivity.
Qed.

Lemma sub_diag (x : number) : isFinite x = true -> sub x x = zero.
Proof.
  unfold sub. destruct x as [s|s| |s m e]; try discriminate; intros _.
  - destruct s; reflexivity.
  - unfold SFsub. rewrite Z.sub_diag. reflexivity.
Qed.

(** ** What the formatted texts are made of *)

Lemma group3_nonempty (s : string) : s <> "" -> group3 s <> "".
Proof. destruct s; [congruence | discriminate]. Qed.

Lemma toLocaleString_nonempty (x : number) (f : Z) :
  toLocaleString_en_US x f <> "".
Proof.
  destruct x as [s|s| |s m e]; unfold toLocaleString_en_US.
  - destruct s; discriminate.
  - destruct s; discriminate.
  - discriminate.
  - destruct (shortest m e) as [d n].
    destruct (scale10 d 1 _) as [p q].
    destruct s; [discriminate|].
    cbn [append]. apply app_nonempty_l, group3_nonempty, decimal_nonempty.
Qed.

Lemma toLocaleString_chars (c : ascii) (x : number) (f : Z) :
  is_digit c = false ->
  Ascii.eqb "," c = false -> Ascii.eqb "." c = false -> Ascii.eqb "-" c = false ->
  isFinite x = true ->
  count c (toLocaleString_en_US x f) = O.
Proof.
  intros Hd Hcomma Hpoint Hminus.
  destruct x as [s|s| |s m e]; try discriminate; intros _;
    unfold toLocaleString_en_US.
  - destruct s; cbn [append count]; rewrite ?Hminus;
      rewrite (is_digit_not c "0" eq_refl Hd); reflexivity.
  - destruct (shortest m e) as [d n].
    destruct (scale10 d 1 _) as [p q].
    set (r := if (q <=? 2 * (p mod q))%Z then _ else _).
    set (padded := repeat "0" _ ++ decimal (r mod 10 ^ f)).
    assert (Hpad : all_digits (strip_trailing_zeros padded) = true).
    { apply all_digits_strip_trailing_zeros. unfold padded.
      rewrite all_digits_app, all_digits_repeat_0, all_digits_decimal.
      reflexivity. }
    rewrite !count_app, count_group3 by exact Hcomma.
    rewrite (all_digits_count c _ Hd (all_digits_decimal _)).
    assert (Hfrac : count c (match strip_trailing_zeros padded with
                             | "" => ""
                             | String _ _ => "." ++ strip_trailing_zeros padded
                             end) = O).
    { destruct (strip_trailing_zeros padded) eqn:E; [reflexivity|].
      rewrite count_app, (all_digits_count c _ Hd Hpad).
      cbn [count]. rewrite Hpoint. reflexivity. }
    rewrite Hfrac. destruct s; cbn [count]; rewrite ?Hminus; reflexivity.
Qed.

Lemma includes_nonempty (s : string) (c : ascii) :
  includes s (String c "") = true -> s <> "".
Proof. destruct s; [discriminate | discriminate]. Qed.

End NumberTextFacts.

(* ================================================================== *)
(** * Properties of the calculator *)
(* ================================================================== *)

Section CalculatorFacts.

Import Text JSNumber Calculator Properties.

Local Open Scope string_scope.

(** Run a command of the script on a world given by its fields. *)
Ltac script :=
  cbv beta iota zeta delta
    [exec eval bind ret modify_store alert step
     CalculatorState.getCurrentOperand CalculatorState.getPreviousOperand
     CalculatorState.getOperation CalculatorState.getShouldResetScreen
     CalculatorState.setCurrentOperand CalculatorState.setPreviousOperand
     CalculatorState.setOperation CalculatorState.setShouldResetScreen
     CalculatorState.reset CalculatorState.initial
     DisplayController.update DisplayController.updateDisplay
     CalculationEngine.calculate CalculationEngine.compute
     InputHandler.appendNumber InputHandler.setOperation InputHandler.clear
     InputHandler.backspace InputHandler.equals
     store currentOperand previousOperand operation shouldResetScreen
     currentOperandElement previousOperandElement alerts fst snd].

Ltac split_branch :=
  match goal with
  | |- context [if ?b then _ else _] => destruct b eqn:?
  | |- context [match ?o with Some _ => _ | None => _ end] => destruct o eqn:?
  end.

Ltac crunch := script; repeat (split_branch; script).

(** ** The model on a few known values *)

Example toString_known_values :
  toString (add (parseFloat "0.1") (parseFloat "0.2")) = "0.30000000000000004" /\
  toString (div (parseFloat "1") (parseFloat "3")) = "0.3333333333333333" /\
  toString (parseFloat "1e21") = "1e+21" /\
  toString (parseFloat "0.0000001") = "1e-7" /\
  toString (parseFloat "-0") = "0".
Proof. vm_compute. repeat split. Qed.

Example formatNumber_known_values :
  DisplayController.formatNumber "1000000" = "1,000,000" /\
  DisplayController.formatNumber "0.0000001" = "1.000000e-7" /\
  DisplayController.formatNumber "12345000000000" = "1.234500e+13" /\
  DisplayController.formatNumber "1234.5" = "1,234.5" /\
  DisplayController.formatNumber "abc" = "0" /\
  DisplayController.formatNumber "" = "".
Proof. vm_compute. repeat split. Qed.

Example compute_known_values :
  CalculationEngine.compute "6" "3" DIVIDE initial_world =
    (parseFloat "2", initial_world) /\
  alerts (exec (CalculationEngine.compute "5" "0" DIVIDE) initial_world) =
    ["Error: Cannot divide by zero"].
Proof. vm_compute. repeat split. Qed.

(** The operators of the script are its own literals: the minus, times and
    divide signs in plain UTF-8 match no case of the switch, and [compute]
    falls through to the current operand. *)
Remark plain_signs_match_no_case :
  eval (CalculationEngine.compute "7" "2" "×") initial_world = parseFloat "2" /\
  eval (CalculationEngine.compute "7" "2" "−") initial_world = parseFloat "2" /\
  eval (CalculationEngine.compute "7" "2" "÷") initial_world = parseFloat "2" /\
  eval (CalculationEngine.compute "7" "2" TIMES) initial_world = parseFloat "14".
Proof. vm_compute. repeat split. Qed.

(** ** Tokens *)

Lemma token_cases (t : string) :
  is_token t = true ->
  t = "." \/ exists c, t = String c "" /\ is_digit c = true.
Proof.
  destruct t as [|c [|d t']]; simpl; try discriminate.
  intros H. apply orb_prop in H. destruct H as [H|H].
  - right. exists c. auto.
  - left. apply Ascii.eqb_eq in H. subst. reflexivity.
Qed.

Lemma token_nonempty (t : string) : is_token t = true -> t <> "".
Proof. destruct t; simpl; congruence. Qed.

Lemma token_dots (t : string) :
  is_token t = true ->
  count "." t = if t =? "." then 1%nat else 0%nat.
Proof.
  intros H. destruct (token_cases t H) as [->|(c & -> & Hc)]; [reflexivity|].
  simpl. destruct (Ascii.eqb c ".") eqn:E; [|reflexivity].
  apply Ascii.eqb_eq in E. subst. discriminate.
Qed.

(** ** Reachable worlds *)

Lemma reachable_run (actions : list action) (w : World) :
  forallb valid actions = true -> reachable w -> reachable (run actions w).
Proof.
  revert w. induction actions as [|a rest IH]; simpl; intros w Hv Hw; [exact Hw|].
  apply andb_prop in Hv. destruct Hv as [Ha Hrest].
  apply IH; [exact Hrest|]. apply reachable_step; assumption.
Defined.

Lemma well_formed_initial : well_formed (store initial_world).
Proof.
  unfold well_formed. simpl. repeat split; [discriminate | lia].
Qed.

Lemma append_token_dots (c t : string) :
  is_token t = true ->
  (count "." c <= 1)%nat ->
  (t =? ".") && includes c "." = false ->
  (count "." (c ++ t) <= 1)%nat.
Proof.
  intros Ht Hc Hrej. rewrite count_app, (token_dots t Ht).
  rewrite includes_count in Hrej.
  destruct (t =? "."); simpl in Hrej; [|lia].
  apply Nat.ltb_ge in Hrej. lia.
Qed.

Lemma pending_iff_text (op : string) (x : number) :
  Some op = None <-> toString x = "".
Proof.
  split; [discriminate|]. intros H. destruct (toString_nonempty x H).
Qed.

Lemma zero_then_token_dots (t : string) :
  is_token t = true -> (count "." ("0" ++ t) <= 1)%nat.
Proof.
  intros Ht. rewrite count_app, (token_dots t Ht).
  destruct (t =? "."); simpl; lia.
Qed.

Lemma step_well_formed (a : action) (w : World) :
  valid a = true ->
  well_formed (store w) -> well_formed (store (exec (step a) w)).
Proof.
  destruct w as [[c p o r] ce pe al]. unfold well_formed. simpl.
  intros Hv (Hc & Hd & Ho).
  destruct a as [t|op| | |]; simpl in Hv; crunch;
    repeat match goal with |- _ /\ _ => split end;
    try assumption; try discriminate; try (simpl; lia);
    try apply pending_iff_text;
    try (intuition congruence);
    try apply toString_nonempty; try apply toString_dots;
    try (apply token_nonempty; assumption);
    try (apply zero_then_token_dots; assumption);
    try (apply append_token_dots; assumption);
    try (apply app_nonempty_l; assumption).
  - apply slice_0_m1_nonempty, Nat.ltb_lt. assumption.
  - pose proof (count_slice_0_m1 "." c). lia.
Qed.

(** Every reachable state is well formed. *)
Lemma reachable_well_formed (w : World) :
  reachable w -> well_formed (store w).
Proof.
  induction 1 as [|a w Hw IH Hv].
  - exact well_formed_initial.
  - apply step_well_formed; assumption.
Qed.

Lemma token_ascii (t : string) : is_token t = true -> is_ascii t = true.
Proof.
  intros H. destruct (token_cases t H) as [->|(c & -> & Hc)]; [reflexivity|].
  simpl. rewrite (is_digit_ascii c Hc). reflexivity.
Qed.

Lemma step_ascii_operands (a : action) (w : World) :
  valid a = true ->
  ascii_operands (store w) -> ascii_operands (store (exec (step a) w)).
Proof.
  destruct w as [[c p o r] ce pe al]. unfold ascii_operands. simpl.
  intros Hv (Hc & Hp).
  destruct a as [t|op| | |]; simpl in Hv; crunch; split;
    try assumption; try reflexivity;
    try apply toString_ascii;
    try (apply token_ascii; assumption);
    try (rewrite is_ascii_app, (token_ascii _ Hv), ?Hc; reflexivity);
    try (apply is_ascii_slice_0_m1; assumption).
Qed.

(** In every reachable state the operands are ASCII: one byte of the text
    is one code unit, whatever the script measures or slices. *)
Lemma reachable_ascii_operands (w : World) :
  reachable w -> ascii_operands (store w).
Proof.
  induction 1 as [|a w Hw IH Hv].
  - split; reflexivity.
  - apply step_ascii_operands; assumption.
Qed.

(** ** Backspace while a reset is pending *)

Lemma calculate_sets_reset (w : World) :
  previousOperand (store w) <> "" ->
  operation (store w) <> None ->
  shouldResetScreen (store (exec CalculationEngine.calculate w)) = true.
Proof.
  destruct w as [[c p o r] ce pe al]. simpl. intros Hp Ho.
  destruct o as [op|]; [|congruence].
  destruct (p =? "") eqn:E; [apply String.eqb_eq in E; congruence|].
  script. rewrite E. crunch; reflexivity.
Qed.

Lemma exec_seq {A B} (m : M A) (k : M B) (w : World) :
  exec (m ;; k) w = exec k (exec m w).
Proof. unfold exec, bind. destruct (m w). reflexivity. Qed.

Lemma store_update (w : World) :
  store (exec DisplayController.update w) = store w.
Proof. destruct w as [[c p o r] ce pe al]. reflexivity. Qed.

(** C3: whenever [shouldResetScreen] (the pending-reset flag) is set,
    [backspace] leaves the same world as [clear], with the four fields at
    their defaults; and so it does right after a [calculate] that had both
    a previous operand and an operation, called by itself or through
    [equals]. *)
Theorem backspace_with_pending_reset_is_clear
    (w w' : World)
    (Hreset : shouldResetScreen (store w) = true)
    (Hprev : previousOperand (store w') <> "")
    (Hop : operation (store w') <> None) :
  (exec InputHandler.backspace w = exec InputHandler.clear w /\
   store (exec InputHandler.backspace w) = mkState "0" "" None false) /\
  (exec InputHandler.backspace (exec CalculationEngine.calculate w') =
   exec InputHandler.clear (exec CalculationEngine.calculate w')) /\
  (exec InputHandler.backspace (exec InputHandler.equals w') =
   exec InputHandler.clear (exec InputHandler.equals w')).
Proof.
  assert (Hgen : forall v, shouldResetScreen (store v) = true ->
            exec InputHandler.backspace v = exec InputHandler.clear v).
  { intros [[c p o r] ce pe al]. simpl. intros ->. reflexivity. }
  split; [split|split].
  - apply Hgen, Hreset.
  - rewrite (Hgen w Hreset). destruct w as [[c p o r] ce pe al]. reflexivity.
  - apply Hgen, calculate_sets_reset; assumption.
  - apply Hgen.
    unfold InputHandler.equals. rewrite exec_seq, store_update. apply calculate_sets_reset; assumption.
Qed.

Lemma backspace_with_pending_reset_is_clear_witness :
  let w := run [AppendDigit "3"; SetOperator "+"] initial_world in
  let w' := run [AppendDigit "3"; SetOperator "+"; AppendDigit "4"] initial_world in
  (exec InputHandler.backspace w = exec InputHandler.clear w /\
   store (exec InputHandler.backspace w) = mkState "0" "" None false) /\
  (exec InputHandler.backspace (exec CalculationEngine.calculate w') =
   exec InputHandler.clear (exec CalculationEngine.calculate w')) /\
  (exec InputHandler.backspace (exec InputHandler.equals w') =
   exec InputHandler.clear (exec InputHandler.equals w')).
Proof.
  intros w w'.
  apply (backspace_with_pending_reset_is_clear w w');
    [reflexivity | vm_compute; discriminate | vm_compute; discriminate].
Defined.

(** ** Chaining and operator swap *)





(** ** Invariants of the reachable states *)

(** C6: in every reachable state an operation is pending ([operation] is
    not null) exactly when the previous operand is not empty. *)
Theorem operation_pending_iff_previous (w : World) (Hw : reachable w) :
  operation (store w) <> None <-> previousOperand (store w) <> "".
Proof.
  destruct (reachable_well_formed w Hw) as (_ & _ & H). tauto.
Qed.

Lemma operation_pending_iff_previous_witness :
  let w := run [AppendDigit "3"; SetOperator "+"; AppendDigit "4"] initial_world in
  operation (store w) <> None <-> previousOperand (store w) <> "".
Proof.
  intros w. apply (operation_pending_iff_previous w).
  apply reachable_run; [reflexivity | apply reachable_initial].
Defined.

(** C7: in every reachable state the current operand has at most one
    point, and a second [appendNumber(".")] right after a first leaves the
    current operand as the first left it. *)
Theorem current_operand_one_point (w : World) (Hw : reachable w) :
  (count "." (currentOperand (store w)) <= 1)%nat /\
  let once := exec (InputHandler.appendNumber ".") w in
  let twice := exec (InputHandler.appendNumber ".") once in
  currentOperand (store twice) = currentOperand (store once) /\
  count "." (currentOperand (store once)) = 1%nat.
Proof.
  destruct (reachable_well_formed w Hw) as (_ & Hd & _). split; [exact Hd|].
  destruct w as [[c p o r] ce pe al]. simpl in Hd.
  destruct r.
  - vm_compute. split; reflexivity.
  - script. change ("." =? ".") with true. cbv beta iota zeta delta [andb negb].
    destruct (includes c ".") eqn:E; script.
    + rewrite E. script. split; [reflexivity|].
      rewrite includes_count in E. apply Nat.ltb_lt in E. lia.
    + assert (Hinc : includes (c ++ ".") "." = true).
      { rewrite includes_count, count_app. apply Nat.ltb_lt. simpl. lia. }
      destruct (c =? "0") eqn:E0; script.
      * rewrite Hinc. script. split; [reflexivity|].
        rewrite includes_count in E. apply Nat.ltb_ge in E.
        rewrite count_app. simpl. lia.
      * rewrite Hinc. script. split; [reflexivity|].
        rewrite includes_count in E. apply Nat.ltb_ge in E.
        rewrite count_app. simpl. lia.
Qed.

Lemma current_operand_one_point_witness :
  let w := run [AppendDigit "1"; AppendDigit "."; AppendDigit "5";
                SetOperator "+"; AppendDigit "2"] initial_world in
  (count "." (currentOperand (store w)) <= 1)%nat /\
  let once := exec (InputHandler.appendNumber ".") w in
  let twice := exec (InputHandler.appendNumber ".") once in
  currentOperand (store twice) = currentOperand (store once) /\
  count "." (currentOperand (store once)) = 1%nat.
Proof.
  intros w. apply (current_operand_one_point w).
  apply reachable_run; [reflexivity | apply reachable_initial].
Defined.

(** C10, as claimed, fails in one clause: [setOperation] does modify the
    current operand when it folds.  With 3 + 4 typed, a further operator
    turns the current operand "4" into "7". *)
Lemma setOperation_fold_rewrites_current_operand :
  let w := run [AppendDigit "3"; SetOperator "+"; AppendDigit "4"] initial_world in
  store w = mkState "4" "3" (Some "+") false /\
  currentOperand (store (exec (InputHandler.setOperation "+") w)) = "7" /\
  currentOperand (store (exec (InputHandler.setOperation "+") w)) <>
  currentOperand (store w).
Proof. vm_compute. repeat split. discriminate. Qed.

(** C10, amended: in every reachable state the current operand is not the
    empty string.  [appendNumber] of a token leaves it non-empty;
    [backspace] leaves it non-empty and replaces an operand of one character
    by "0"; [calculate], when an operation is pending, stores the text of a
    number, which is not empty; [clear] and [reset] store "0"; and
    [setOperation] leaves it as it is unless it folds, and then stores the
    text that [calculate] stores.  So the guard of [setOperation] on an
    empty current operand does not fire: the operator is installed. *)
Theorem current_operand_never_empty (w : World) (Hw : reachable w) :
  (currentOperand (store w) <> "" /\
   (currentOperand (store w) =? "") = false /\
   forall op, operation (store (exec (InputHandler.setOperation op) w)) = Some op) /\
  (forall t, is_token t = true ->
     currentOperand (store (exec (InputHandler.appendNumber t) w)) <> "") /\
  (currentOperand (store (exec InputHandler.backspace w)) <> "" /\
   (shouldResetScreen (store w) = false ->
    String.length (currentOperand (store w)) = 1%nat ->
    currentOperand (store (exec InputHandler.backspace w)) = "0")) /\
  (previousOperand (store w) <> "" -> operation (store w) <> None ->
   currentOperand (store (exec CalculationEngine.calculate w)) = pending_result w /\
   pending_result w <> "") /\
  (currentOperand (store (exec InputHandler.clear w)) = "0" /\
   currentOperand (store (exec CalculatorState.reset w)) = "0") /\
  (forall op,
     currentOperand (store (exec (InputHandler.setOperation op) w)) =
     if folds (store w) then pending_result w else currentOperand (store w)).
Proof.
  pose proof (reachable_well_formed w Hw) as Hwf.
  destruct Hwf as (Hc & Hd & Ho).
  assert (E : (currentOperand (store w) =? "") = false).
  { apply String.eqb_neq. exact Hc. }
  split; [|split; [|split; [|split; [|split]]]].
  - repeat split; [exact Hc | exact E |].
    intros op. destruct w as [[c p o r] ce pe al]. simpl in E.
    script. rewrite E. crunch; reflexivity.
  - intros t Ht.
    apply (step_well_formed (AppendDigit t) w Ht (conj Hc (conj Hd Ho))).
  - split.
    + apply (step_well_formed Backspace w eq_refl (conj Hc (conj Hd Ho))).
    + destruct w as [[c p o r] ce pe al].
      cbn [store currentOperand shouldResetScreen]. intros -> Hlen.
      script. rewrite Hlen. reflexivity.
  - intros Hp Hop. destruct w as [[c p o r] ce pe al].
    cbn [store previousOperand operation] in Hp, Hop.
    destruct o as [op|]; [|congruence].
    apply String.eqb_neq in Hp. unfold pending_result.
    cbn [store currentOperand previousOperand operation].
    split; [|apply toString_nonempty].
    script. rewrite Hp. crunch; reflexivity.
  - destruct w as [[c p o r] ce pe al]. split; reflexivity.
  - intros op. destruct w as [[c p o r] ce pe al].
    cbn [store currentOperand] in E. unfold folds, pending_result.
    cbn [store currentOperand previousOperand operation shouldResetScreen].
    script. rewrite E.
    destruct o as [op0|], r, (p =? "") eqn:Ep; cbn [negb andb]; script;
      rewrite ?Ep; crunch; reflexivity.
Qed.

Lemma current_operand_never_empty_witness :
  let w := run [AppendDigit "3"; SetOperator "+"; AppendDigit "4"] initial_world in
  (currentOperand (store w) <> "" /\
   (currentOperand (store w) =? "") = false /\
   forall op, operation (store (exec (InputHandler.setOperation op) w)) = Some op) /\
  (forall t, is_token t = true ->
     currentOperand (store (exec (InputHandler.appendNumber t) w)) <> "") /\
  (currentOperand (store (exec InputHandler.backspace w)) <> "" /\
   (shouldResetScreen (store w) = false ->
    String.length (currentOperand (store w)) = 1%nat ->
    currentOperand (store (exec InputHandler.backspace w)) = "0")) /\
  (previousOperand (store w) <> "" -> operation (store w) <> None ->
   currentOperand (store (exec CalculationEngine.calculate w)) = pending_result w /\
   pending_result w <> "") /\
  (currentOperand (store (exec InputHandler.clear w)) = "0" /\
   currentOperand (store (exec CalculatorState.reset w)) = "0") /\
  (forall op,
     currentOperand (store (exec (InputHandler.setOperation op) w)) =
     if folds (store w) then pending_result w else currentOperand (store w)).
Proof.
  intros w. apply (current_operand_never_empty w).
  apply reachable_run; [reflexivity | apply reachable_initial].
Defined.

(** ** Entering an operand *)

Lemma append_empty_r (s : string) : s ++ "" = s.
Proof. induction s as [|c s IH]; simpl; [reflexivity|]. rewrite IH. reflexivity. Qed.

Lemma concat_cons (t : string) (rest : list string) :
  String.concat "" (t :: rest) = t ++ String.concat "" rest.
Proof.
  destruct rest as [|u rest]; simpl; [|reflexivity].
  symmetry. apply append_empty_r.
Qed.

Lemma fold_enter_started (tokens : list string) (c : string) :
  forallb is_token tokens = true ->
  c <> "" -> c <> "0" ->
  fold_left enter tokens c = c ++ String.concat "" tokens.
Proof.
  revert c. induction tokens as [|t rest IH]; intros c Hts Hne H0.
  - simpl. symmetry. apply append_empty_r.
  - simpl in Hts. apply andb_prop in Hts. destruct Hts as [Ht Hrest].
    rewrite concat_cons. cbn [fold_left]. unfold enter at 2.
    apply String.eqb_neq in H0. rewrite H0. cbn [andb].
    rewrite IH; [apply append_assoc_text | exact Hrest | |].
    + apply app_nonempty_l. exact Hne.
    + destruct c as [|x [|y c']]; [congruence | | ].
      * destruct (token_cases t Ht) as [->|(d & -> & _)]; discriminate.
      * discriminate.
Qed.

Lemma fold_enter_entered (tokens : list string) :
  forallb is_token tokens = true ->
  fold_left enter tokens "0" = entered tokens.
Proof.
  induction tokens as [|t rest IH]; intros Hts; [reflexivity|].
  simpl in Hts. apply andb_prop in Hts. destruct Hts as [Ht Hrest].
  unfold entered. rewrite concat_cons. cbn [fold_left].
  destruct (token_cases t Ht) as [->|(d & -> & Hd)].
  - change (enter "0" ".") with "0.".
    rewrite fold_enter_started by (assumption || discriminate). reflexivity.
  - destruct (Ascii.eqb d "0") eqn:E0.
    + apply Ascii.eqb_eq in E0. subst d.
      change (enter "0" "0") with "0". rewrite (IH Hrest). reflexivity.
    + assert (Ep : Ascii.eqb d "." = false).
      { apply (is_digit_not "." d Hd). reflexivity. }
      assert (Hent : enter "0" (String d "") = String d "").
      { unfold enter. cbn [String.eqb]. rewrite Ep. reflexivity. }
      rewrite Hent.
      rewrite fold_enter_started; [| exact Hrest | discriminate |].
      * cbn [append strip_leading_zeros]. rewrite E0, Ep. reflexivity.
      * intros H. inversion H. subst d. discriminate.
Qed.

Lemma appendNumber_enters (t : string) (w : World) :
  shouldResetScreen (store w) = false ->
  (t =? ".") && includes (currentOperand (store w)) "." = false ->
  store (exec (InputHandler.appendNumber t) w) =
  mkState (enter (currentOperand (store w)) t) (previousOperand (store w))
          (operation (store w)) false.
Proof.
  destruct w as [[c p o r] ce pe al]. simpl. intros -> Hrej.
  script. rewrite Hrej. unfold enter. crunch; reflexivity.
Qed.

Lemma run_appendNumber_enters (tokens : list string) (w : World) :
  shouldResetScreen (store w) = false ->
  forallb is_token tokens = true ->
  (count "." (currentOperand (store w)) + count_occ string_dec tokens "." <= 1)%nat ->
  currentOperand (store (run (map AppendDigit tokens) w)) =
  fold_left enter tokens (currentOperand (store w)).
Proof.
  revert w. induction tokens as [|t rest IH]; intros w Hr Hts Hdots;
    [reflexivity|].
  simpl in Hts. apply andb_prop in Hts. destruct Hts as [Ht Hrest].
  assert (Hrej : (t =? ".") && includes (currentOperand (store w)) "." = false).
  { destruct (t =? ".") eqn:E; [|reflexivity].
    apply String.eqb_eq in E. subst t.
    rewrite count_occ_cons_eq in Hdots by reflexivity.
    rewrite includes_count. apply Nat.ltb_ge. simpl. lia. }
  pose proof (appendNumber_enters t w Hr Hrej) as Hstep.
  cbn [map run step fold_left].
  rewrite IH; rewrite ?Hstep; cbn [currentOperand shouldResetScreen];
    [reflexivity | reflexivity | exact Hrest |].
  assert (Hle : (count "." (enter (currentOperand (store w)) t) <=
                 count "." (currentOperand (store w)) + count "." t)%nat).
  { unfold enter.
    destruct ((currentOperand (store w) =? "0") && negb (t =? "."));
      [lia | rewrite count_app; lia]. }
  rewrite (token_dots t Ht) in Hle.
  destruct (string_dec t ".") as [->|Hne].
  - rewrite count_occ_cons_eq in Hdots by reflexivity. simpl in Hle. lia.
  - rewrite count_occ_cons_neq in Hdots by exact Hne.
    apply String.eqb_neq in Hne. rewrite Hne in Hle. lia.
Qed.

(** C8: for tokens that are digits or the point, with at most one point
    among them, typing them from the initial state leaves as current operand
    what the leading-zero-replacement rule makes of them, token after token:
    their concatenation without its leading zeros ("0" when nothing is
    left, a "0" before a leading point); "5" typed on "0" gives "5". *)
Theorem appendDigit_concatenates
    (tokens : list string)
    (Htokens : forallb is_token tokens = true)
    (Hpoint : (count_occ string_dec tokens "." <= 1)%nat) :
  let typed := currentOperand (store (run (map AppendDigit tokens) initial_world)) in
  typed = fold_left enter tokens "0" /\
  typed = entered tokens /\
  currentOperand (store (exec (InputHandler.appendNumber "5") initial_world)) = "5".
Proof.
  assert (H : currentOperand (store (run (map AppendDigit tokens) initial_world))
              = fold_left enter tokens "0").
  { apply (run_appendNumber_enters tokens initial_world);
      [reflexivity | exact Htokens | simpl; lia]. }
  cbv zeta. repeat split.
  - exact H.
  - rewrite H. apply fold_enter_entered, Htokens.
Qed.

Lemma appendDigit_concatenates_witness :
  let tokens := ["0"; "0"; "1"; "2"; "."; "0"; "5"] in
  let typed := currentOperand (store (run (map AppendDigit tokens) initial_world)) in
  typed = fold_left enter tokens "0" /\
  typed = entered tokens /\
  currentOperand (store (exec (InputHandler.appendNumber "5") initial_world)) = "5".
Proof.
  intros tokens.
  apply (appendDigit_concatenates tokens); [reflexivity | vm_compute; lia].
Defined.

(** ** The calculation engine *)

Lemma strict_eq_zero_not_NaN (x : number) :
  strict_eq x zero = true -> isNaN x = false.
Proof. destruct x; cbv; congruence. Qed.




(** C1, as claimed, fails: with 5 divide 0 pending, [calculate] alerts and
    then changes the state, committing "0" as the result. *)
Lemma calculate_by_zero_changes_state :
  let w := five_divided_by_zero in
  store w = mkState "0" "5" (Some DIVIDE) false /\
  strict_eq (parseFloat (currentOperand (store w))) zero = true /\
  alerts (exec CalculationEngine.calculate w) = ["Error: Cannot divide by zero"] /\
  store (exec CalculationEngine.calculate w) = mkState "0" "" None true /\
  store (exec CalculationEngine.calculate w) <> store w.
Proof. vm_compute. repeat split. discriminate. Qed.

(** C1, amended: when [calculate] runs with a division pending, a previous
    operand that parses and a current operand that parses to 0, the user is
    alerted of the division by zero and 0 is committed as the result: the
    current operand becomes "0", the previous operand and the operation are
    cleared and the reset is pending; the display is not touched. *)
Theorem calculate_by_zero_alerts_and_commits_zero
    (w : World)
    (Hop : operation (store w) = Some DIVIDE)
    (Hprev : isNaN (parseFloat (previousOperand (store w))) = false)
    (Hzero : strict_eq (parseFloat (currentOperand (store w))) zero = true) :
  exec CalculationEngine.calculate w =
  mkWorld (mkState "0" "" None true)
          (currentOperandElement w) (previousOperandElement w)
          (alerts w ++ ["Error: Cannot divide by zero"])%list.
Proof.
  destruct w as [[c p o r] ce pe al]. simpl in Hop, Hprev, Hzero. subst o.
  assert (Hp : (p =? "") = false).
  { apply String.eqb_neq. intros ->. vm_compute in Hprev. discriminate. }
  script. rewrite Hp, Hprev, (strict_eq_zero_not_NaN _ Hzero).
  change (DIVIDE =? "+") with false. change (DIVIDE =? MINUS) with false.
  change (DIVIDE =? TIMES) with false. change (DIVIDE =? DIVIDE) with true.
  cbn [orb]. script. rewrite Hzero. script. reflexivity.
Qed.

Lemma calculate_by_zero_alerts_and_commits_zero_witness :
  exec CalculationEngine.calculate five_divided_by_zero =
  mkWorld (mkState "0" "" None true)
          (currentOperandElement five_divided_by_zero)
          (previousOperandElement five_divided_by_zero)
          (alerts five_divided_by_zero ++ ["Error: Cannot divide by zero"])%list.
Proof.
  apply (calculate_by_zero_alerts_and_commits_zero five_divided_by_zero);
    reflexivity.
Defined.

(** ** The number formatter *)

(** C2, as claimed, fails: "1000000000000" parses to 1e12, whose magnitude
    does not exceed 1e12 and is not below 1e-6, and yet it is rendered in
    exponential notation and not in grouped decimal form. *)
Lemma formatNumber_1e12_is_exponential :
  let raw := "1000000000000" in
  let x := parseFloat raw in
  isFinite x = true /\
  out_of_range_1e12 x = false /\
  DisplayController.formatNumber raw = "1.000000e+12" /\
  DisplayController.formatNumber raw = toExponential x 6 /\
  toLocaleString_en_US x 10 = "1,000,000,000,000" /\
  DisplayController.formatNumber raw <> toLocaleString_en_US x 10.
Proof. vm_compute. repeat split. discriminate. Qed.

(** C2, amended: a string that parses to a finite number is rendered in
    exponential notation with 6 digits after the point exactly when the
    magnitude of the number exceeds 999999999999, or the number is not zero
    and its magnitude is below 0.000001; otherwise it is rendered in grouped
    decimal form with at most 10 fraction digits. *)
Theorem formatNumber_notation
    (raw : string) (Hfinite : isFinite (parseFloat raw) = true) :
  let x := parseFloat raw in
  DisplayController.formatNumber raw =
    (if out_of_range x then toExponential x 6 else toLocaleString_en_US x 10) /\
  includes (DisplayController.formatNumber raw) "e" = out_of_range x.
Proof.
  assert (Hraw : (raw =? "") = false).
  { apply String.eqb_neq. intros ->. vm_compute in Hfinite. discriminate. }
  assert (Hnan : isNaN (parseFloat raw) = false).
  { destruct (parseFloat raw); (discriminate || reflexivity). }
  assert (Heq : DisplayController.formatNumber raw =
                if out_of_range (parseFloat raw)
                then toExponential (parseFloat raw) 6
                else toLocaleString_en_US (parseFloat raw) 10).
  { unfold DisplayController.formatNumber, out_of_range.
    rewrite Hraw, Hnan. reflexivity. }
  cbv zeta. split; [exact Heq|]. rewrite Heq.
  destruct (out_of_range (parseFloat raw)).
  - apply toExponential_has_e, Hfinite.
  - apply toLocaleString_no_e.
Qed.

Lemma formatNumber_notation_witness :
  let x := parseFloat "0.0000001" in
  DisplayController.formatNumber "0.0000001" =
    (if out_of_range x then toExponential x 6 else toLocaleString_en_US x 10) /\
  includes (DisplayController.formatNumber "0.0000001") "e" = out_of_range x.
Proof.
  apply (formatNumber_notation "0.0000001"). reflexivity.
Defined.

(* ================================================================== *)
(** * Further properties of the script *)
(* ================================================================== *)

(** ** The display *)

Lemma step_in_sync (a : action) (w : World) :
  well_formed (store w) -> in_sync w -> in_sync (exec (step a) w).
Proof.
  destruct w as [[c p o r] ce pe al].
  unfold well_formed, in_sync, current_line, previous_line.
  intros (Hc & _ & _) (Hce & Hpe). cbn in Hc, Hce, Hpe.
  destruct a as [t|op| | |]; crunch; split;
    try assumption; try reflexivity.
  all: try match goal with
       | H : (?x =? "") = true |- _ => apply String.eqb_eq in H; congruence
       | H : _ && includes "0" "." = true |- _ =>
           change (includes "0" ".") with false in H;
           rewrite andb_false_r in H; discriminate
       end.
  all: congruence.
Qed.

(** In every reachable world the display shows the state. *)
Lemma reachable_in_sync (w : World) : reachable w -> in_sync w.
Proof.
  induction 1 as [|a w Hw IH Hv].
  - split; reflexivity.
  - apply step_in_sync; [apply reachable_well_formed; exact Hw | exact IH].
Qed.

(** X1: in every reachable world the two display elements show the state:
    the current line is [formatNumber] of the current operand, the other
    line is the formatted previous operand and the operator when an
    operation is pending and is blank otherwise.  The returns of
    [appendNumber] and [setOperation] that skip [update] never leave the
    display behind. *)
Theorem display_shows_state (w : World) (Hw : reachable w) :
  currentOperandElement w =
    DisplayController.formatNumber (currentOperand (store w)) /\
  previousOperandElement w =
    match operation (store w) with
    | Some op =>
        if negb (previousOperand (store w) =? "")
        then DisplayController.formatNumber (previousOperand (store w)) ++ " " ++ op
        else ""
    | None => ""
    end.
Proof.
  change (in_sync w).
  induction Hw as [|a w Hw IH Hv].
  - split; reflexivity.
  - apply step_in_sync; [apply reachable_well_formed; exact Hw | exact IH].
Qed.

Lemma display_shows_state_witness :
  let w := run [AppendDigit "1"; AppendDigit "."; AppendDigit ".";
                SetOperator "+"; AppendDigit "2"] initial_world in
  currentOperandElement w =
    DisplayController.formatNumber (currentOperand (store w)) /\
  previousOperandElement w =
    match operation (store w) with
    | Some op =>
        if negb (previousOperand (store w) =? "")
        then DisplayController.formatNumber (previousOperand (store w)) ++ " " ++ op
        else ""
    | None => ""
    end.
Proof.
  intros w. apply (display_shows_state w).
  apply reachable_run; [reflexivity | apply reachable_initial].
Defined.

(** ** Alerts *)

Lemma step_same_view (a : action) (w1 w2 : World) :
  same_view w1 w2 -> same_view (exec (step a) w1) (exec (step a) w2).
Proof.
  destruct w1 as [[c p o r] ce pe al], w2 as [s2 ce2 pe2 al2].
  unfold same_view. simpl. intros (<- & <- & <-).
  destruct a as [t|op| | |]; crunch; repeat split.
Qed.

Lemma run_same_view (actions : list action) (w1 w2 : World) :
  same_view w1 w2 -> same_view (run actions w1) (run actions w2).
Proof.
  revert w1 w2. induction actions as [|a rest IH]; intros w1 w2 H; [exact H|].
  simpl. apply IH, step_same_view, H.
Qed.

(** X2: [clear] brings any world back to the one of the freshly loaded
    page, alerts apart, and whatever the user does next goes as from a
    fresh page: same state and same display after every sequence of
    actions. *)
Theorem clear_starts_afresh (actions : list action) (w : World) :
  store (exec InputHandler.clear w) = store initial_world /\
  same_view (run actions (exec InputHandler.clear w)) (run actions initial_world).
Proof.
  assert (H : same_view (exec InputHandler.clear w) initial_world).
  { destruct w as [[c p o r] ce pe al]. repeat split. }
  split; [apply H | apply run_same_view, H].
Qed.

(** What an action adds to the alerts. *)
Lemma step_alerts (a : action) (w : World) :
  alerts (exec (step a) w) = alerts w \/
  (alerts (exec (step a) w) = (alerts w ++ [division_by_zero_message])%list /\
   (a = Equals \/ exists op, a = SetOperator op) /\
   operation (store w) = Some DIVIDE /\
   isNaN (parseFloat (previousOperand (store w))) = false /\
   strict_eq (parseFloat (currentOperand (store w))) zero = true).
Proof.
  destruct w as [[c p o r] ce pe al]. simpl.
  destruct a as [t|op| | |]; crunch; try (left; reflexivity); right;
    repeat match goal with
    | H : (_ || _) = false |- _ => apply orb_false_elim in H; destruct H
    | H : (_ =? DIVIDE) = true |- _ => apply String.eqb_eq in H; subst
    end;
    repeat split; eauto.
Qed.

(** X3: an action alerts at most once, and only the division by zero: when
    it does, it is [equals] or an operator key, a division is pending with a
    previous operand that parses and a current operand that parses to 0.
    Digits, [clear] and [backspace] never alert. *)
Theorem step_alerts_only_division_by_zero (a : action) (w : World) :
  alerts (exec (step a) w) = alerts w \/
  (alerts (exec (step a) w) = (alerts w ++ [division_by_zero_message])%list /\
   (a = Equals \/ exists op, a = SetOperator op) /\
   operation (store w) = Some DIVIDE /\
   isNaN (parseFloat (previousOperand (store w))) = false /\
   strict_eq (parseFloat (currentOperand (store w))) zero = true).
Proof.
  destruct w as [[c p o r] ce pe al]. simpl.
  destruct a as [t|op| | |]; crunch; try (left; reflexivity); right;
    repeat match goal with
    | H : (_ || _) = false |- _ => apply orb_false_elim in H; destruct H
    | H : (_ =? DIVIDE) = true |- _ => apply String.eqb_eq in H; subst
    end;
    repeat split; eauto.
Qed.

(** X4: every alert a reachable world has shown is the division-by-zero
    message. *)
Theorem alerts_are_division_by_zero (w : World) (Hw : reachable w) :
  Forall (fun message => message = division_by_zero_message) (alerts w).
Proof.
  induction Hw as [|a w Hw IH Hv]; [constructor|].
  destruct (step_alerts a w) as [E|(E & _)]; rewrite E.
  - exact IH.
  - apply Forall_app. split; [exact IH | repeat constructor].
Qed.

Lemma alerts_are_division_by_zero_witness :
  Forall (fun message => message = division_by_zero_message)
         (alerts (run [Equals; SetOperator TIMES; AppendDigit "9"; Equals]
                      (exec InputHandler.equals five_divided_by_zero))).
Proof.
  apply (alerts_are_division_by_zero
           (run [Equals; SetOperator TIMES; AppendDigit "9"; Equals]
                (exec InputHandler.equals five_divided_by_zero))).
  apply reachable_run; [reflexivity|].
  apply (reachable_step Equals); [|reflexivity].
  apply reachable_run; [reflexivity | apply reachable_initial].
Defined.

(** Close a branch whose tests contradict one another. *)
Ltac contradictory_tests :=
  exfalso;
  repeat match goal with
  | H : ?b = true, H' : context [?b] |- _ =>
      lazymatch b with
      | true => fail
      | false => fail
      | _ => rewrite H in H'
      end
  | H : ?b = false, H' : context [?b] |- _ =>
      lazymatch b with
      | true => fail
      | false => fail
      | _ => rewrite H in H'
      end
  | H : (toString _ =? "") = true |- _ =>
      apply String.eqb_eq in H; destruct (toString_nonempty _ H)
  end;
  cbn [negb andb orb] in *;
  rewrite ?andb_false_r in *;
  congruence.

(** The same as [crunch], with [compute] kept whole: its result and the
    world it leaves are named. *)
Ltac script_around_compute :=
  cbv beta iota zeta delta
    [exec eval bind ret modify_store step
     CalculatorState.getCurrentOperand CalculatorState.getPreviousOperand
     CalculatorState.getOperation CalculatorState.getShouldResetScreen
     CalculatorState.setCurrentOperand CalculatorState.setPreviousOperand
     CalculatorState.setOperation CalculatorState.setShouldResetScreen
     CalculatorState.reset CalculatorState.initial
     DisplayController.update DisplayController.updateDisplay
     CalculationEngine.calculate
     InputHandler.appendNumber InputHandler.setOperation InputHandler.clear
     InputHandler.backspace InputHandler.equals
     store currentOperand previousOperand operation shouldResetScreen
     currentOperandElement previousOperandElement alerts fst snd].

Ltac name_compute :=
  match goal with
  | |- context [CalculationEngine.compute ?p ?c ?o ?w] =>
      let res := fresh "res" in
      destruct (CalculationEngine.compute p c o w)
        as [res [[? ? ? ?] ? ? ?]]
  end.

Ltac crunch_around_compute :=
  script_around_compute;
  repeat (first [name_compute | split_branch]; script_around_compute).

(** ** How the keys compose *)

(** X5: [equals] twice is [equals] once: the second finds nothing pending
    and leaves state, display and alerts as they are. *)
Theorem equals_is_idempotent (w : World) :
  exec InputHandler.equals (exec InputHandler.equals w) =
  exec InputHandler.equals w.
Proof.
  destruct w as [[c p o r] ce pe al].
  crunch_around_compute; (reflexivity || contradictory_tests).
Qed.

(** X6: of two operators pressed in a row the last one wins: the first
    press folds what was pending, the second only replaces the operator, so
    the world is the one the second operator alone would have left. *)
Theorem last_operator_wins (op1 op2 : string) (w : World) :
  exec (InputHandler.setOperation op2) (exec (InputHandler.setOperation op1) w) =
  exec (InputHandler.setOperation op2) w.
Proof.
  destruct w as [[c p o r] ce pe al].
  crunch_around_compute; (reflexivity || contradictory_tests).
Qed.

Lemma slice_0_m1_app_char (c : string) (x : ascii) :
  slice_0_m1 (c ++ String x "") = c.
Proof.
  induction c as [|d c IH]; [reflexivity|].
  cbn [append slice_0_m1]. rewrite IH.
  destruct c; reflexivity.
Qed.

Lemma length_app_char (c : string) (x : ascii) :
  String.length (c ++ String x "") = S (String.length c).
Proof. induction c as [|d c IH]; simpl; [reflexivity|]. rewrite IH. reflexivity. Qed.

Lemma token_char (t : string) :
  is_token t = true -> exists x, t = String x "".
Proof.
  intros H. destruct (token_cases t H) as [->|(x & -> & _)]; eauto.
Qed.

(** X7: [backspace] undoes a digit or point that was taken: in a reachable
    world with no reset pending, a token that [appendNumber] does not refuse
    (a second point), followed by [backspace], leaves the world as it
    was. *)
Theorem backspace_undoes_token
    (t : string) (w : World)
    (Hw : reachable w)
    (Hreset : shouldResetScreen (store w) = false)
    (Htoken : is_token t = true)
    (Htaken : (t =? ".") && includes (currentOperand (store w)) "." = false) :
  exec InputHandler.backspace (exec (InputHandler.appendNumber t) w) = w.
Proof.
  destruct (reachable_well_formed w Hw) as (Hc & _ & _).
  destruct (reachable_in_sync w Hw) as (Hce & Hpe).
  destruct (token_char t Htoken) as (x & ->).
  destruct w as [[c p o r] ce pe al].
  cbn [store currentOperand previousOperand operation shouldResetScreen
       currentOperandElement previousOperandElement]
    in Hc, Hce, Hpe, Hreset, Htaken.
  subst r ce pe. script. rewrite Htaken.
  destruct ((c =? "0") && negb (String x "" =? ".")) eqn:E; script.
  - apply andb_prop in E. destruct E as [E _].
    apply String.eqb_eq in E. subst c. reflexivity.
  - rewrite length_app_char, slice_0_m1_app_char.
    destruct c as [|d c']; [congruence|]. reflexivity.
Qed.

Lemma backspace_undoes_token_witness :
  let w := run [AppendDigit "1"; AppendDigit "."; AppendDigit "5"] initial_world in
  exec InputHandler.backspace (exec (InputHandler.appendNumber "7") w) = w.
Proof.
  intros w. apply (backspace_undoes_token "7" w); try reflexivity.
  apply reachable_run; [reflexivity | apply reachable_initial].
Defined.

Lemma length_slice_0_m1 (s : string) :
  String.length (slice_0_m1 s) = pred (String.length s).
Proof.
  induction s as [|c s IH]; [reflexivity|].
  destruct s as [|d s']; [reflexivity|].
  change (slice_0_m1 (String c (String d s')))
    with (String c (slice_0_m1 (String d s'))).
  cbn [String.length] in *. rewrite IH. reflexivity.
Qed.

Lemma backspace_store (w : World) :
  shouldResetScreen (store w) = false ->
  store (exec InputHandler.backspace w) =
  mkState (if (1 <? String.length (currentOperand (store w)))%nat
           then slice_0_m1 (currentOperand (store w)) else "0")
          (previousOperand (store w)) (operation (store w)) false.
Proof.
  destruct w as [[c p o r] ce pe al]. simpl. intros ->.
  script. destruct (1 <? String.length c)%nat; reflexivity.
Qed.

(** X8: with no reset pending, as many [backspace]s as the current operand
    has characters (one at least) leave "0" as current operand, and more of
    them keep it; the previous operand and the operation are not touched. *)
Theorem backspaces_end_at_zero
    (n : nat) (w : World)
    (Hreset : shouldResetScreen (store w) = false)
    (Hn : (1 <= n)%nat)
    (Hlen : (String.length (currentOperand (store w)) <= n)%nat) :
  store (run (List.repeat Backspace n) w) =
  mkState "0" (previousOperand (store w)) (operation (store w)) false.
Proof.
  revert w Hreset Hlen. induction n as [|n IH]; intros w Hreset Hlen; [lia|].
  cbn [List.repeat run step].
  pose proof (backspace_store w Hreset) as Hb.
  destruct n as [|n'].
  - cbn [List.repeat run]. rewrite Hb.
    destruct (1 <? String.length (currentOperand (store w)))%nat eqn:E;
      [apply Nat.ltb_lt in E; lia | reflexivity].
  - rewrite IH; rewrite ?Hb; cbn [shouldResetScreen currentOperand
                                   previousOperand operation];
      [reflexivity | lia | reflexivity |].
    destruct (1 <? String.length (currentOperand (store w)))%nat eqn:E.
    + rewrite length_slice_0_m1. lia.
    + simpl. lia.
Qed.

Lemma backspaces_end_at_zero_witness :
  let w := run [AppendDigit "1"; AppendDigit "2"; SetOperator "+";
                AppendDigit "3"; AppendDigit "4"; AppendDigit "5"] initial_world in
  store (run (List.repeat Backspace 3) w) =
  mkState "0" (previousOperand (store w)) (operation (store w)) false.
Proof.
  intros w. apply (backspaces_end_at_zero 3 w); [reflexivity | lia | simpl; lia].
Defined.

(** ** A whole calculation *)

Lemma run_app (l1 l2 : list action) (w : World) :
  run (l1 ++ l2) w = run l2 (run l1 w).
Proof.
  revert w. induction l1 as [|a l1 IH]; intros w; [reflexivity|].
  simpl. apply IH.
Qed.

Lemma run_tokens_store (tokens : list string) (w : World) :
  shouldResetScreen (store w) = false ->
  forallb is_token tokens = true ->
  (count "." (currentOperand (store w)) + count_occ string_dec tokens "." <= 1)%nat ->
  store (run (map AppendDigit tokens) w) =
  mkState (fold_left enter tokens (currentOperand (store w)))
          (previousOperand (store w)) (operation (store w)) false.
Proof.
  revert w. induction tokens as [|t rest IH]; intros w Hr Hts Hdots.
  - destruct w as [[c p o r] ce pe al]. simpl in *. subst r. reflexivity.
  - simpl in Hts. apply andb_prop in Hts. destruct Hts as [Ht Hrest].
    assert (Hrej : (t =? ".") && includes (currentOperand (store w)) "." = false).
    { destruct (t =? ".") eqn:E; [|reflexivity].
      apply String.eqb_eq in E. subst t.
      rewrite count_occ_cons_eq in Hdots by reflexivity.
      rewrite includes_count. apply Nat.ltb_ge. simpl. lia. }
    pose proof (appendNumber_enters t w Hr Hrej) as Hstep.
    cbn [map run step fold_left].
    rewrite IH; rewrite ?Hstep;
      cbn [currentOperand previousOperand operation shouldResetScreen];
      [reflexivity | reflexivity | exact Hrest |].
    assert (Hle : (count "." (enter (currentOperand (store w)) t) <=
                   count "." (currentOperand (store w)) + count "." t)%nat).
    { unfold enter.
      destruct ((currentOperand (store w) =? "0") && negb (t =? "."));
        [lia | rewrite count_app; lia]. }
    rewrite (token_dots t Ht) in Hle.
    destruct (string_dec t ".") as [->|Hne].
    + rewrite count_occ_cons_eq in Hdots by reflexivity. simpl in Hle. lia.
    + rewrite count_occ_cons_neq in Hdots by exact Hne.
      apply String.eqb_neq in Hne. rewrite Hne in Hle. lia.
Qed.

Lemma appendNumber_after_reset (t : string) (w : World) :
  shouldResetScreen (store w) = true ->
  store (exec (InputHandler.appendNumber t) w) =
  mkState (enter "0" t) (previousOperand (store w)) (operation (store w)) false.
Proof.
  destruct w as [[c p o r] ce pe al]. simpl. intros ->. unfold enter.
  crunch; try reflexivity.
  all: match goal with
       | H : _ && includes "0" "." = true |- _ =>
           change (includes "0" ".") with false in H;
           rewrite andb_false_r in H; discriminate
       end.
Qed.

Lemma stripped_head (tokens : list string) :
  forallb is_token tokens = true ->
  strip_leading_zeros (String.concat "" tokens) = "" \/
  exists c rest,
    strip_leading_zeros (String.concat "" tokens) = String c rest /\
    (is_digit c = true \/ c = "."%char).
Proof.
  induction tokens as [|t rest IH]; intros Hts; [left; reflexivity|].
  simpl in Hts. apply andb_prop in Hts. destruct Hts as [Ht Hrest].
  rewrite concat_cons.
  destruct (token_cases t Ht) as [->|(d & -> & Hd)].
  - right. exists "."%char, (String.concat "" rest). split; [reflexivity | auto].
  - cbn [append strip_leading_zeros].
    destruct (Ascii.eqb d "0"); [apply IH, Hrest|].
    right. exists d, (String.concat "" rest). split; [reflexivity | auto].
Qed.

(** What has been typed starts with a digit, and so parses to a number. *)
Lemma entered_head (tokens : list string) :
  forallb is_token tokens = true ->
  exists d rest, entered tokens = String d rest /\ is_digit d = true.
Proof.
  intros Hts. unfold entered.
  destruct (stripped_head tokens Hts) as [->|(c & rest & -> & Hc)].
  - exists "0"%char, "". split; reflexivity.
  - destruct Hc as [Hc | ->].
    + rewrite (is_digit_not "." c Hc) by reflexivity. eauto.
    + exists "0"%char, (String "." rest). split; reflexivity.
Qed.

Lemma entered_is_number (tokens : list string) :
  forallb is_token tokens = true -> isNaN (parseFloat (entered tokens)) = false.
Proof.
  intros Hts. destruct (entered_head tokens Hts) as (d & rest & -> & Hd).
  apply parseFloat_digit_is_number, Hd.
Qed.

Lemma equals_store (w : World) (op : string) :
  operation (store w) = Some op ->
  isNaN (parseFloat (previousOperand (store w))) = false ->
  isNaN (parseFloat (currentOperand (store w))) = false ->
  store (exec InputHandler.equals w) =
  mkState (toString (operator_result op (parseFloat (previousOperand (store w)))
                                        (parseFloat (currentOperand (store w)))))
          "" None true.
Proof.
  destruct w as [[c p o r] ce pe al]. simpl. intros -> Hp Hc.
  assert (Hne : (p =? "") = false).
  { apply String.eqb_neq. intros ->. vm_compute in Hp. discriminate. }
  unfold operator_result. script. rewrite Hne, Hp, Hc. cbn [orb].
  crunch; reflexivity.
Qed.

Lemma typed_after_operator (t : string) (rest : list string) (w : World) :
  shouldResetScreen (store w) = true ->
  forallb is_token (t :: rest) = true ->
  (count_occ string_dec (t :: rest) "." <= 1)%nat ->
  store (run (map AppendDigit (t :: rest)) w) =
  mkState (entered (t :: rest)) (previousOperand (store w))
          (operation (store w)) false.
Proof.
  intros Hreset Hts Hdots.
  pose proof Hts as Hall.
  cbn [forallb] in Hts. apply andb_prop in Hts. destruct Hts as [Ht Hrest].
  cbn [map run step].
  pose proof (appendNumber_after_reset t w Hreset) as Hfirst.
  rewrite run_tokens_store; rewrite ?Hfirst;
    cbn [currentOperand previousOperand operation shouldResetScreen];
    [ | reflexivity | exact Hrest | ].
  - rewrite <- (fold_enter_entered (t :: rest)) by exact Hall. reflexivity.
  - assert (Hle : (count "." (enter "0" t) <= count "." t)%nat).
    { unfold enter. destruct (("0" =? "0") && negb (t =? "."));
        [lia | rewrite count_app; simpl; lia]. }
    rewrite (token_dots t Ht) in Hle.
    destruct (string_dec t ".") as [->|Hn].
    + rewrite count_occ_cons_eq in Hdots by reflexivity.
      change (count "." (enter "0" ".")) with 1%nat. lia.
    + rewrite count_occ_cons_neq in Hdots by exact Hn.
      apply String.eqb_neq in Hn. rewrite Hn in Hle. lia.
Qed.

(** The state once an operand, an operator and a second operand are
    typed. *)
Lemma operands_entered (a b : list string) (op : string) :
  forallb is_token a = true ->
  forallb is_token b = true ->
  (count_occ string_dec a "." <= 1)%nat ->
  (count_occ string_dec b "." <= 1)%nat ->
  b <> [] ->
  store (run (map AppendDigit b)
             (run [SetOperator op] (run (map AppendDigit a) initial_world))) =
  mkState (entered b) (entered a) (Some op) false.
Proof.
  intros Ha Hb Hpa Hpb Hne.
  set (w1 := run (map AppendDigit a) initial_world).
  assert (H1 : store w1 = mkState (entered a) "" None false).
  { unfold w1. rewrite run_tokens_store; [|reflexivity | exact Ha | simpl; lia].
    rewrite fold_enter_entered by exact Ha. reflexivity. }
  set (w2 := run [SetOperator op] w1).
  assert (H2 : store w2 = mkState (entered a) (entered a) (Some op) true).
  { unfold w2. destruct w1 as [[c p o r] ce pe al]. simpl in H1.
    injection H1 as E1 E2 E3 E4. subst c p o r. cbn [run].
    destruct (entered_head a Ha) as (d & rest & E & _). rewrite E.
    crunch; try reflexivity.
    all: match goal with
         | H : (String _ _ =? "") = true |- _ => cbn in H; discriminate H
         end. }
  destruct b as [|t rest]; [congruence|].
  rewrite typed_after_operator; rewrite ?H2; auto.
Qed.

(** X9: a whole calculation.  Typing an operand, an operator, a second
    operand (one token at least) and the equals key, from the freshly loaded
    page, leaves the text of the result as current operand, nothing pending
    and the reset flag set: the result is the IEEE sum, difference, product
    or quotient of the two numbers typed, 0 for a division by zero, and the
    second number for an operator that is none of the four.  Each operand is
    read as typed: without leading zeros, with a "0" before a leading
    point. *)
Theorem binary_entry_result
    (a b : list string) (op : string)
    (Ha : forallb is_token a = true)
    (Hb : forallb is_token b = true)
    (Hpa : (count_occ string_dec a "." <= 1)%nat)
    (Hpb : (count_occ string_dec b "." <= 1)%nat)
    (Hne : b <> []) :
  store (run (binary_entry a op b) initial_world) =
  mkState (toString (operator_result op (parseFloat (entered a))
                                        (parseFloat (entered b))))
          "" None true.
Proof.
  unfold binary_entry. rewrite !run_app.
  pose proof (operands_entered a b op Ha Hb Hpa Hpb Hne) as H.
  cbn [run step] in H |- *.
  rewrite (equals_store _ op); rewrite H;
    cbn [currentOperand previousOperand operation];
    [reflexivity | reflexivity | apply entered_is_number, Ha
     | apply entered_is_number, Hb].
Qed.

Lemma binary_entry_result_witness :
  store (run (binary_entry ["0"; "1"; "2"; "."; "5"] DIVIDE ["."; "5"])
             initial_world) =
  mkState (toString (operator_result DIVIDE
                       (parseFloat (entered ["0"; "1"; "2"; "."; "5"]))
                       (parseFloat (entered ["."; "5"]))))
          "" None true.
Proof.
  apply (binary_entry_result ["0"; "1"; "2"; "."; "5"] ["."; "5"] DIVIDE);
    try reflexivity; try (vm_compute; lia).
  discriminate.
Defined.

Lemma setOperation_folds (op2 op1 : string) (w : World) :
  operation (store w) = Some op1 ->
  shouldResetScreen (store w) = false ->
  isNaN (parseFloat (previousOperand (store w))) = false ->
  isNaN (parseFloat (currentOperand (store w))) = false ->
  let r := toString (operator_result op1 (parseFloat (previousOperand (store w)))
                                         (parseFloat (currentOperand (store w)))) in
  store (exec (InputHandler.setOperation op2) w) = mkState r r (Some op2) true.
Proof.
  destruct w as [[c p o r] ce pe al]. simpl. intros -> -> Hp Hc.
  assert (Hpe : (p =? "") = false).
  { apply String.eqb_neq. intros ->. vm_compute in Hp. discriminate. }
  assert (Hce : (c =? "") = false).
  { apply String.eqb_neq. intros ->. vm_compute in Hc. discriminate. }
  unfold operator_result. script. rewrite Hce, Hpe. cbn [negb andb]. script.
  rewrite Hp, Hc. cbn [orb].
  crunch; try reflexivity; contradictory_tests.
Qed.

(** X17: operators chain from left to right, whatever the operands.  Typing
    [a op1 b op2 c] and equals leaves the text of [(a op1 b) op2 c]: the
    second operator folds [a op1 b], the text of that result is read back as
    the left operand of [op2].  The precondition is that this text parses
    (it does not when the first result is NaN). *)
Theorem chained_entry_result
    (a b c : list string) (op1 op2 : string)
    (Ha : forallb is_token a = true)
    (Hb : forallb is_token b = true)
    (Hc : forallb is_token c = true)
    (Hpa : (count_occ string_dec a "." <= 1)%nat)
    (Hpb : (count_occ string_dec b "." <= 1)%nat)
    (Hpc : (count_occ string_dec c "." <= 1)%nat)
    (Hnb : b <> []) (Hnc : c <> [])
    (Hfirst : isNaN (parseFloat (toString
                (operator_result op1 (parseFloat (entered a))
                                     (parseFloat (entered b))))) = false) :
  store (run (chained_entry a op1 b op2 c) initial_world) =
  mkState
    (toString
       (operator_result op2
          (parseFloat (toString (operator_result op1 (parseFloat (entered a))
                                                     (parseFloat (entered b)))))
          (parseFloat (entered c))))
    "" None true.
Proof.
  unfold chained_entry. rewrite !run_app.
  set (w1 := run (map AppendDigit a) initial_world).
  assert (H1 : store w1 = mkState (entered a) "" None false).
  { unfold w1. rewrite run_tokens_store; [|reflexivity | exact Ha | simpl; lia].
    rewrite fold_enter_entered by exact Ha. reflexivity. }
  set (w2 := run [SetOperator op1] w1).
  assert (H2 : store w2 = mkState (entered a) (entered a) (Some op1) true).
  { unfold w2. destruct w1 as [[x p o r] ce pe al]. simpl in H1.
    injection H1 as E1 E2 E3 E4. subst x p o r. cbn [run].
    destruct (entered_head a Ha) as (d & rest & E & _). rewrite E.
    crunch; try reflexivity.
    all: match goal with
         | H : (String _ _ =? "") = true |- _ => cbn in H; discriminate H
         end. }
  destruct b as [|tb restb]; [congruence|].
  set (w3 := run (map AppendDigit (tb :: restb)) w2).
  assert (H3 : store w3 = mkState (entered (tb :: restb)) (entered a) (Some op1) false).
  { unfold w3. rewrite typed_after_operator; rewrite ?H2; auto. }
  set (w4 := run [SetOperator op2] w3).
  set (r1 := toString (operator_result op1 (parseFloat (entered a))
                                           (parseFloat (entered (tb :: restb))))) in *.
  assert (H4 : store w4 = mkState r1 r1 (Some op2) true).
  { unfold w4. cbn [run step].
    rewrite (setOperation_folds op2 op1 w3); rewrite H3;
      cbn [currentOperand previousOperand operation shouldResetScreen];
      try reflexivity; apply entered_is_number; assumption. }
  destruct c as [|tc restc]; [congruence|].
  set (w5 := run (map AppendDigit (tc :: restc)) w4).
  assert (H5 : store w5 = mkState (entered (tc :: restc)) r1 (Some op2) false).
  { unfold w5. rewrite typed_after_operator; rewrite ?H4; auto. }
  cbn [run step].
  rewrite (equals_store w5 op2); rewrite H5;
    cbn [currentOperand previousOperand operation];
    [reflexivity | reflexivity | exact Hfirst |].
  apply entered_is_number, Hc.
Qed.

Lemma chained_entry_result_witness :
  store (run (chained_entry ["3"] "+" ["4"] TIMES ["2"]) initial_world) =
  mkState
    (toString
       (operator_result TIMES
          (parseFloat (toString (operator_result "+" (parseFloat (entered ["3"]))
                                                     (parseFloat (entered ["4"])))))
          (parseFloat (entered ["2"]))))
    "" None true.
Proof.
  apply (chained_entry_result ["3"] ["4"] ["2"] "+" TIMES);
    try reflexivity; try (vm_compute; lia); discriminate.
Defined.

(** X18: typing and editing never touch what is pending.  [appendNumber],
    whatever the token, keeps the previous operand and the operation and
    leaves no reset pending; with the reset pending it starts the operand
    afresh from "0", so that a point is never refused then.  [backspace]
    with no reset pending keeps the previous operand and the operation. *)
Theorem typing_keeps_what_is_pending (t : string) (w : World) :
  let typed := store (exec (InputHandler.appendNumber t) w) in
  let erased := store (exec InputHandler.backspace w) in
  previousOperand typed = previousOperand (store w) /\
  operation typed = operation (store w) /\
  shouldResetScreen typed = false /\
  (shouldResetScreen (store w) = true -> currentOperand typed = enter "0" t) /\
  (shouldResetScreen (store w) = false ->
   previousOperand erased = previousOperand (store w) /\
   operation erased = operation (store w)).
Proof.
  cbv zeta. repeat split.
  - destruct w as [[c p o r] ce pe al]. crunch; reflexivity.
  - destruct w as [[c p o r] ce pe al]. crunch; reflexivity.
  - destruct w as [[c p o r] ce pe al]. crunch; reflexivity.
  - intros H. rewrite (appendNumber_after_reset t w H). reflexivity.
  - rewrite (backspace_store w H). reflexivity.
  - rewrite (backspace_store w H). reflexivity.
Qed.

(** ** Arithmetic seen from the keys *)

(** X10: addition and multiplication do not depend on the order of the
    operands: [compute] returns the same number, and alerts nothing, with
    the two operand strings exchanged. *)
Theorem compute_add_mul_commute (a b : string) (w : World) :
  CalculationEngine.compute a b "+" w = CalculationEngine.compute b a "+" w /\
  CalculationEngine.compute a b TIMES w = CalculationEngine.compute b a TIMES w /\
  exec (CalculationEngine.compute a b "+") w = w /\
  exec (CalculationEngine.compute a b TIMES) w = w.
Proof.
  unfold CalculationEngine.compute, exec.
  change ("+" =? "+") with true. change (TIMES =? "+") with false.
  change (TIMES =? MINUS) with false. change (TIMES =? TIMES) with true.
  cbv iota. rewrite (orb_comm (isNaN (parseFloat b))).
  rewrite (add_comm (parseFloat b)), (mul_comm (parseFloat b)).
  destruct (isNaN (parseFloat a) || isNaN (parseFloat b)); repeat split.
Qed.

(** X11: a finite number minus itself is 0: typing an operand, minus, the
    same operand and equals leaves "0", as long as the operand does not
    overflow to Infinity. *)
Theorem operand_minus_itself_is_zero
    (a : list string)
    (Ha : forallb is_token a = true)
    (Hpa : (count_occ string_dec a "." <= 1)%nat)
    (Hne : a <> [])
    (Hfinite : isFinite (parseFloat (entered a)) = true) :
  store (run (binary_entry a MINUS a) initial_world) = mkState "0" "" None true.
Proof.
  unfold binary_entry. rewrite !run_app.
  pose proof (operands_entered a a MINUS Ha Ha Hpa Hpa Hne) as H.
  cbn [run step] in H |- *.
  rewrite (equals_store _ MINUS); rewrite H;
    cbn [currentOperand previousOperand operation];
    try reflexivity; try (apply entered_is_number, Ha).
  unfold operator_result.
  change (MINUS =? "+") with false. change (MINUS =? MINUS) with true.
  cbv iota. rewrite (sub_diag _ Hfinite). reflexivity.
Qed.

Lemma operand_minus_itself_is_zero_witness :
  store (run (binary_entry ["3"; "."; "7"; "5"] MINUS ["3"; "."; "7"; "5"])
             initial_world) = mkState "0" "" None true.
Proof.
  apply (operand_minus_itself_is_zero ["3"; "."; "7"; "5"]);
    try reflexivity; try (vm_compute; lia).
  discriminate.
Defined.

(** ** An operator key followed by equals *)

Lemma step_pending_copy (a : action) (w : World) :
  (shouldResetScreen (store w) = true -> operation (store w) <> None ->
   previousOperand (store w) = currentOperand (store w)) ->
  shouldResetScreen (store (exec (step a) w)) = true ->
  operation (store (exec (step a) w)) <> None ->
  previousOperand (store (exec (step a) w)) =
  currentOperand (store (exec (step a) w)).
Proof.
  destruct w as [[c p o r] ce pe al].
  cbn [store currentOperand previousOperand operation shouldResetScreen].
  intros Hinv.
  destruct a as [t|op| | |]; crunch; intros Hr Ho;
    try reflexivity; try discriminate; try congruence;
    try (apply Hinv; congruence).
Qed.

(** X12: in a reachable world where the reset is pending and an operation
    is set, that is right after an operator key, the previous operand is the
    current operand; so [equals] at that point applies the operator to the
    operand and itself. *)
Theorem operator_key_copies_operand
    (w : World) (op : string)
    (Hw : reachable w)
    (Hreset : shouldResetScreen (store w) = true)
    (Hop : operation (store w) = Some op) :
  previousOperand (store w) = currentOperand (store w) /\
  (isNaN (parseFloat (currentOperand (store w))) = false ->
   store (exec InputHandler.equals w) =
   mkState (toString (operator_result op
                        (parseFloat (currentOperand (store w)))
                        (parseFloat (currentOperand (store w)))))
           "" None true).
Proof.
  assert (Hcopy : previousOperand (store w) = currentOperand (store w)).
  { assert (H : shouldResetScreen (store w) = true ->
                operation (store w) <> None ->
                previousOperand (store w) = currentOperand (store w)).
    { clear Hreset Hop. induction Hw as [|a w Hw IH Hv].
      - discriminate.
      - apply step_pending_copy, IH. }
    apply H; congruence. }
  split; [exact Hcopy|]. intros Hnum.
  rewrite (equals_store w op Hop); rewrite ?Hcopy; [reflexivity | exact Hnum ..].
Qed.

Lemma operator_key_copies_operand_witness :
  let w := run [AppendDigit "5"; SetOperator TIMES] initial_world in
  previousOperand (store w) = currentOperand (store w) /\
  (isNaN (parseFloat (currentOperand (store w))) = false ->
   store (exec InputHandler.equals w) =
   mkState (toString (operator_result TIMES
                        (parseFloat (currentOperand (store w)))
                        (parseFloat (currentOperand (store w)))))
           "" None true).
Proof.
  intros w. apply (operator_key_copies_operand w TIMES); try reflexivity.
  apply reachable_run; [reflexivity | apply reachable_initial].
Defined.

(** ** What the display can show *)

(** The texts [formatNumber] can give. *)
Lemma formatNumber_blank (raw : string) :
  DisplayController.formatNumber raw = "" -> raw = "".
Proof.
  unfold DisplayController.formatNumber.
  destruct (raw =? "") eqn:Eraw; [intros _; apply String.eqb_eq, Eraw|].
  destruct (isNaN (parseFloat raw)) eqn:Enan; [discriminate|].
  intros E. exfalso. revert E.
  match goal with |- context [if ?b then _ else _] => destruct b end.
  - destruct (isFinite (parseFloat raw)) eqn:Efin.
    + intros E. pose proof (toExponential_has_e _ 6 Efin) as He.
      rewrite E in He. discriminate.
    + destruct (parseFloat raw) as [s|s| |s m e]; try discriminate.
      destruct s; discriminate.
  - apply toLocaleString_nonempty.
Qed.

Lemma formatNumber_not_NaN (raw : string) :
  DisplayController.formatNumber raw <> "NaN".
Proof.
  unfold DisplayController.formatNumber.
  destruct (raw =? ""); [discriminate|].
  destruct (isNaN (parseFloat raw)) eqn:Enan; [discriminate|].
  destruct (isFinite (parseFloat raw)) eqn:Efin.
  - match goal with |- context [if ?b then _ else _] => destruct b end; intros E.
    + pose proof (toExponential_has_e _ 6 Efin) as He.
      rewrite E in He. discriminate.
    + pose proof (toLocaleString_chars "N" (parseFloat raw) 10
                    eq_refl eq_refl eq_refl eq_refl Efin) as HN.
      rewrite E in HN. discriminate.
  - destruct (parseFloat raw) as [s|s| |s m e]; try discriminate.
    match goal with |- context [if ?b then _ else _] => destruct b end;
      destruct s; discriminate.
Qed.

(** X13: [formatNumber] gives the empty text for the empty string only,
    and never gives "NaN": a string that does not parse is shown as "0". *)
Theorem formatNumber_never_blank_nor_NaN (raw : string) :
  (DisplayController.formatNumber raw = "" <-> raw = "") /\
  DisplayController.formatNumber raw <> "NaN".
Proof.
  split; [split|].
  - apply formatNumber_blank.
  - intros ->. reflexivity.
  - apply formatNumber_not_NaN.
Qed.

(** X14: in every reachable world the current line of the display is
    neither blank nor "NaN". *)
Theorem current_line_never_blank_nor_NaN (w : World) (Hw : reachable w) :
  currentOperandElement w <> "" /\ currentOperandElement w <> "NaN".
Proof.
  destruct (reachable_in_sync w Hw) as (-> & _).
  destruct (reachable_well_formed w Hw) as (Hc & _).
  split.
  - intros E. apply Hc, formatNumber_blank, E.
  - apply formatNumber_not_NaN.
Qed.

Lemma current_line_never_blank_nor_NaN_witness :
  let w := run [AppendDigit "1"; SetOperator DIVIDE; AppendDigit "3";
                Equals; SetOperator TIMES] initial_world in
  currentOperandElement w <> "" /\ currentOperandElement w <> "NaN".
Proof.
  intros w. apply (current_line_never_blank_nor_NaN w).
  apply reachable_run; [reflexivity | apply reachable_initial].
Defined.

(** ** The keyboard *)

Import EventListeners.

(** X15: the key map selects only what the script handles.  A key mapped to
    a number button is mapped to the button of its own character, a token of
    [appendNumber]; a key mapped to an operator button is mapped to one of
    the four operators of [compute]; a key mapped to an action button is
    mapped to one of the three actions of the click listener.  Every key
    whose default action is prevented is in the map. *)
Theorem keyMap_selects_what_is_handled
    (key : string) (sel : selector) (Hsel : keyMap key = Some sel) :
  match fst sel with
  | DataNumber => snd sel = key /\ is_token key = true
  | DataOperator => In (snd sel) ["+"; MINUS; TIMES; DIVIDE]
  | DataAction => In (snd sel) ["clear"; "backspace"; "equals"]
  end /\
  forall k, prevents_default k = true -> keyMap k <> None.
Proof.
  split.
  - unfold keyMap, keyMap_entries in Hsel. cbn [find fst snd] in Hsel.
    repeat match type of Hsel with
    | context [if ?k =? key then _ else _] =>
        destruct (k =? key) eqn:E;
          [apply String.eqb_eq in E; subst key; injection Hsel as <-;
           cbn; auto 10 | clear E]
    end.
    discriminate Hsel.
  - intros k Hk. unfold prevents_default in Hk. cbn [existsb] in Hk.
    repeat match type of Hk with
    | context [(k =? ?c) || _] =>
        destruct (k =? c) eqn:E;
          [apply String.eqb_eq in E; subst k; discriminate | clear E];
        cbn [orb] in Hk
    end.
    discriminate Hk.
Qed.

Lemma keyMap_selects_what_is_handled_witness :
  In (snd (DataOperator, TIMES)) ["+"; MINUS; TIMES; DIVIDE] /\
  forall k, prevents_default k = true -> keyMap k <> None.
Proof.
  apply (keyMap_selects_what_is_handled "*" (DataOperator, TIMES)).
  reflexivity.
Defined.

Lemma exec_ret (w : World) : exec (ret tt) w = w.
Proof. reflexivity. Qed.

Lemma click_is_run (button : Button) :
  (forall number, data_number button = Some number -> is_token number = true) ->
  exists actions,
    forallb valid actions = true /\
    forall w, exec (click button) w = run actions w.
Proof.
  destruct button as [dn dop da]. cbn [data_number]. intros Hn.
  exists ((match dn with Some n => [AppendDigit n] | None => [] end) ++
          (match dop with Some o => [SetOperator o] | None => [] end) ++
          (match da with
           | Some a => if a =? "clear" then [Clear]
                       else if a =? "backspace" then [Backspace]
                       else if a =? "equals" then [Equals] else []
           | None => []
           end))%list.
  split.
  - rewrite !forallb_app.
    destruct dn as [n|]; [cbn [forallb valid]; rewrite (Hn n eq_refl)|];
      destruct dop; destruct da as [a|]; try reflexivity;
      destruct (a =? "clear"), (a =? "backspace"), (a =? "equals"); reflexivity.
  - intros w. unfold click. cbn [data_number data_operator data_action].
    rewrite !exec_seq, !run_app.
    destruct dn, dop, da as [a|]; try reflexivity;
      destruct (a =? "clear"), (a =? "backspace"), (a =? "equals"); reflexivity.
Qed.

Lemma keydown_reachable (document : list Button) (key : string) (w : World) :
  number_buttons_valid document ->
  reachable w -> reachable (exec (keydown document key) w).
Proof.
  intros Hdoc Hw. unfold keydown, mapKeyToButton.
  destruct (keyMap key) as [sel|]; [|exact Hw].
  unfold querySelector. destruct (find (matches sel) document) as [b|] eqn:E;
    [|exact Hw].
  apply find_some in E. destruct E as [Hin _].
  destruct (click_is_run b (fun n => Hdoc b n Hin)) as (actions & Hv & Hrun).
  rewrite Hrun. apply reachable_run; assumption.
Qed.

(** X16: the keyboard brings about reachable worlds only.  On a page whose
    number buttons carry tokens of [appendNumber], whatever keys are pressed
    from the freshly loaded page, the world is one that the five operations
    of the input handler reach; so it is well formed and its display shows
    its state. *)
Theorem keyboard_worlds_are_reachable
    (document : list Button) (keys : list string)
    (Hdoc : number_buttons_valid document) :
  reachable (press document keys initial_world) /\
  well_formed (store (press document keys initial_world)) /\
  in_sync (press document keys initial_world).
Proof.
  assert (H : forall w, reachable w -> reachable (press document keys w)).
  { induction keys as [|key rest IH]; intros w Hw; [exact Hw|].
    cbn [press]. apply IH, keydown_reachable; assumption. }
  specialize (H initial_world reachable_initial).
  split; [exact H | split].
  - exact (reachable_well_formed _ H).
  - exact (reachable_in_sync _ H).
Qed.

Lemma keypad_number_buttons_valid : number_buttons_valid keypad.
Proof.
  intros b n Hin Hn. cbn in Hin.
  repeat (destruct Hin as [<-|Hin];
          [cbn in Hn; first [discriminate Hn | injection Hn as <-; reflexivity]|]).
  destruct Hin.
Defined.

Lemma keyboard_worlds_are_reachable_witness :
  let keys := ["3"; "+"; "4"; "*"; "2"; "Enter"; "x"; "Backspace"; "7"] in
  reachable (press keypad keys initial_world) /\
  well_formed (store (press keypad keys initial_world)) /\
  in_sync (press keypad keys initial_world).
Proof.
  intros keys.
  apply (keyboard_worlds_are_reachable keypad keys keypad_number_buttons_valid).
Defined.

(** ** The operands as text *)

(** X19: in every reachable world the current and the previous operand are
    ASCII text: digits, the point and what the text of a Number is made
    of. *)
Theorem operands_are_ascii (w : World) (Hw : reachable w) :
  is_ascii (currentOperand (store w)) = true /\
  is_ascii (previousOperand (store w)) = true.
Proof.
  change (ascii_operands (store w)).
  induction Hw as [|a w Hw IH Hv].
  - split; reflexivity.
  - apply step_ascii_operands; assumption.
Qed.

Lemma operands_are_ascii_witness :
  let w := run [AppendDigit "1"; SetOperator DIVIDE; AppendDigit "3";
                SetOperator MINUS] initial_world in
  is_ascii (currentOperand (store w)) = true /\
  is_ascii (previousOperand (store w)) = true.
Proof.
  intros w. apply (operands_are_ascii w).
  apply reachable_run; [reflexivity | apply reachable_initial].
Defined.

End CalculatorFacts.
